(** * Verification of [netlify/functions/fetchImages.js]

    A shallow embedding of the order-to-archive pipeline: the order
    fetchers ([getOrdersByDate], [getOrdersByNumberRange]), the image
    resolver ([getAllImageUrlsByQuantity]), the archive streamer
    ([streamZipToBlobStorage]) and the request [handler].

    Every [await] of the source is a step of a state-and-exception monad
    over an abstract outside world (network, clock, blob store).  All
    requests and their outcomes are recorded in a chronological log, so
    that statements such as "no further page is requested" are statements
    about that log. *)

From stdpp Require Import gmap strings list fin_maps pretty sorting.
From Stdlib Require Import ZArith Lia Sorted Ascii.

Open Scope Z_scope.

(* ===================================================================== *)
(** * JavaScript values *)
(* ===================================================================== *)

(** The scalar values a JSON field such as [product_id] can hold.  JSON
    numbers are integers here (identifiers, order numbers, quantities). *)
Inductive JsVal : Type :=
  | JsUndefined
  | JsNull
  | JsBool (b : bool)
  | JsNum (n : Z)
  | JsStr (s : string).

#[global] Instance JsVal_eq_dec : EqDecision JsVal.
Proof. solve_decision. Defined.

Definition JsVal_encode (v : JsVal) : unit + unit + bool + Z + string :=
  match v with
  | JsUndefined => inl (inl (inl (inl tt)))
  | JsNull => inl (inl (inl (inr tt)))
  | JsBool b => inl (inl (inr b))
  | JsNum n => inl (inr n)
  | JsStr s => inr s
  end.

Definition JsVal_decode (x : unit + unit + bool + Z + string) : JsVal :=
  match x with
  | inl (inl (inl (inl _))) => JsUndefined
  | inl (inl (inl (inr _))) => JsNull
  | inl (inl (inr b)) => JsBool b
  | inl (inr n) => JsNum n
  | inr s => JsStr s
  end.

#[global] Instance JsVal_countable : Countable JsVal.
Proof.
  apply (inj_countable' JsVal_encode JsVal_decode).
  intros []; reflexivity.
Defined.

(** A string is truthy unless it is empty. *)
Definition str_truthy (s : string) : bool :=
  match s with
  | EmptyString => false
  | String _ _ => true
  end.

(** [ToBoolean]: the test of [if (v)], [!v] and [while (v)]. *)
Definition truthy (v : JsVal) : bool :=
  match v with
  | JsUndefined | JsNull => false
  | JsBool b => b
  | JsNum n => negb (n =? 0)
  | JsStr s => str_truthy s
  end.

(** [ToString], as applied by a template literal [`${v}`]. *)
Definition ToString (v : JsVal) : string :=
  match v with
  | JsUndefined => "undefined"
  | JsNull => "null"
  | JsBool true => "true"
  | JsBool false => "false"
  | JsNum n => pretty n
  | JsStr s => s
  end.

(** A variable that holds a string or [null] ([None]). *)
Definition opt_truthy (v : option string) : bool :=
  match v with
  | Some s => str_truthy s
  | None => false
  end.

(** The double quote character, and a string made of it. *)
Definition dquote_char : ascii := ascii_of_nat 34.
Definition dquote : string := String dquote_char EmptyString.

(* ===================================================================== *)
(** * Built-ins of the language and the platform *)
(* ===================================================================== *)

(** ** Dates (ECMAScript time values: milliseconds since the epoch, UTC) *)

Definition msPerDay : Z := 86400000.
Definition maxTime : Z := 8640000000000000.

Definition Day (t : Z) : Z := t / msPerDay.
Definition TimeWithinDay (t : Z) : Z := t mod msPerDay.

Definition MakeTime (h m s ms : Z) : Z := ((h * 60 + m) * 60 + s) * 1000 + ms.

Definition TimeClip (t : Z) : option Z :=
  if (Z.abs t <=? maxTime) then Some t else None.

(** [d.setUTCHours(h, m, s, ms)] on a date whose time value is [tv]
    ([None] is the invalid date). *)
Definition setUTCHours (tv : option Z) (h m s ms : Z) : option Z :=
  match tv with
  | None => None
  | Some t => TimeClip (Day t * msPerDay + MakeTime h m s ms)
  end.

(** Year, month and day of month of a day number (days since the epoch)
    in the proleptic Gregorian calendar. *)
Definition civil_from_days (z : Z) : Z * Z * Z :=
  let z := z + 719468 in
  let era := z / 146097 in
  let doe := z - era * 146097 in
  let yoe := (doe - doe / 1460 + doe / 36524 - doe / 146096) / 365 in
  let y := yoe + era * 400 in
  let doy := doe - (365 * yoe + yoe / 4 - yoe / 100) in
  let mp := (5 * doy + 2) / 153 in
  let d := doy - (153 * mp + 2) / 5 + 1 in
  let m := if mp <? 10 then mp + 3 else mp - 9 in
  (if m <=? 2 then y + 1 else y, m, d).

(** Decimal digits of a non-negative number, left-padded with zeros to
    [width]. *)
Fixpoint zeros (n : nat) : string :=
  match n with
  | O => ""
  | S n' => "0" +:+ zeros n'
  end.

Definition pad (width : nat) (n : Z) : string :=
  let digits := pretty (Z.to_N n) in
  zeros (width - String.length digits) +:+ digits.

Definition format_year (y : Z) : string :=
  if (0 <=? y) && (y <=? 9999) then pad 4 y
  else if y <? 0 then "-" +:+ pad 6 (- y)
  else "+" +:+ pad 6 y.

Definition format_date (day : Z) : string :=
  let '(y, m, d) := civil_from_days day in
  format_year y +:+ "-" +:+ pad 2 m +:+ "-" +:+ pad 2 d.

Definition format_time (t : Z) : string :=
  pad 2 (t / 3600000) +:+ ":" +:+ pad 2 (t / 60000 mod 60) +:+ ":" +:+
  pad 2 (t / 1000 mod 60) +:+ "." +:+ pad 3 (t mod 1000).

(** [d.toISOString()]: throws a RangeError on the invalid date. *)
Definition toISOString (tv : option Z) : string + string :=
  match tv with
  | None => inl "Invalid time value"
  | Some t => inr (format_date (Day t) +:+ "T" +:+ format_time (TimeWithinDay t) +:+ "Z")
  end.

(** ** [URLSearchParams]: the application/x-www-form-urlencoded serializer *)

Definition hex_digit (n : N) : ascii :=
  ascii_of_N (if (n <? 10)%N then 48 + n else 55 + n)%N.

Definition is_alnum (c : ascii) : bool :=
  let n := N_of_ascii c in
  ((48 <=? n) && (n <=? 57) || (65 <=? n) && (n <=? 90) || (97 <=? n) && (n <=? 122))%N.

Definition urlencode_char (c : ascii) : string :=
  let n := N_of_ascii c in
  if is_alnum c || (n =? 42)%N || (n =? 45)%N || (n =? 46)%N || (n =? 95)%N
  then String c EmptyString
  else if (n =? 32)%N then "+"
  else String "%" (String (hex_digit (n / 16)) (String (hex_digit (n mod 16)) EmptyString)).

Fixpoint urlencode (s : string) : string :=
  match s with
  | EmptyString => EmptyString
  | String c r => urlencode_char c +:+ urlencode r
  end.

Fixpoint URLSearchParams_toString (params : list (string * string)) : string :=
  match params with
  | [] => ""
  | [(k, v)] => urlencode k +:+ "=" +:+ urlencode v
  | (k, v) :: rest => urlencode k +:+ "=" +:+ urlencode v +:+ "&" +:+ URLSearchParams_toString rest
  end.

(** ** Strings *)

(** [s.split(',')] for a one-character separator. *)
Fixpoint split_on (sep : ascii) (s : string) : list string :=
  match s with
  | EmptyString => [EmptyString]
  | String c r =>
      if Ascii.eqb c sep then EmptyString :: split_on sep r
      else match split_on sep r with
           | [] => [String c EmptyString]
           | w :: ws => String c w :: ws
           end
  end.

(** [s.includes(needle)] *)
Fixpoint includes (needle s : string) : bool :=
  String.prefix needle s ||
  match s with
  | EmptyString => false
  | String _ r => includes needle r
  end.

Definition is_line_terminator (c : ascii) : bool :=
  let n := N_of_ascii c in ((n =? 10) || (n =? 13))%N.

(** The capture of [/(.*?)>/] anchored at the start of [s]: the
    characters before the first [>], none of them a line terminator. *)
Fixpoint capture_to_gt (s : string) : option string :=
  match s with
  | EmptyString => None
  | String c r =>
      if Ascii.eqb c ">" then Some EmptyString
      else if is_line_terminator c then None
      else String c <$> capture_to_gt r
  end.

(** [s.match(/<(.*?)>/)]: the capture group of the leftmost match, [None]
    when the pattern does not match ([match] returns [null]). *)
Fixpoint match_angle (s : string) : option string :=
  match s with
  | EmptyString => None
  | String c r =>
      if Ascii.eqb c "<" then
        match capture_to_gt r with
        | Some u => Some u
        | None => match_angle r
        end
      else match_angle r
  end.

Definition rel_next : string := "rel=" +:+ dquote +:+ "next" +:+ dquote.

(** Lines 174-183: the URL of the next page from the [link] header;
    [inl] is the TypeError of indexing a [null] match. *)
Definition next_page_url (linkHeader : option string) : string + option string :=
  match linkHeader with
  | Some h =>
      if str_truthy h then
        match List.find (includes rel_next) (split_on "," h) with
        | Some nextLink =>
            match match_angle nextLink with
            | Some u => inr (Some u)
            | None => inl "Cannot read properties of null (reading '1')"
            end
        | None => inr None
        end
      else inr None
  | None => inr None
  end.

(** ** [JSON.stringify] of an object whose fields are strings *)

Definition hex_lower (n : N) : ascii :=
  ascii_of_N (if (n <? 10)%N then 48 + n else 87 + n)%N.

Definition json_escape_char (c : ascii) : string :=
  let n := N_of_ascii c in
  if (n =? 34)%N then "\" +:+ dquote
  else if (n =? 92)%N then "\\"
  else if (n =? 8)%N then "\b"
  else if (n =? 9)%N then "\t"
  else if (n =? 10)%N then "\n"
  else if (n =? 12)%N then "\f"
  else if (n =? 13)%N then "\r"
  else if (n <? 32)%N then
    "\u00" +:+ String (hex_lower (n / 16)) (String (hex_lower (n mod 16)) EmptyString)
  else String c EmptyString.

Fixpoint json_escape (s : string) : string :=
  match s with
  | EmptyString => EmptyString
  | String c r => json_escape_char c +:+ json_escape r
  end.

Definition json_quote (s : string) : string := dquote +:+ json_escape s +:+ dquote.

Fixpoint json_fields (fields : list (string * string)) : string :=
  match fields with
  | [] => ""
  | [(k, v)] => json_quote k +:+ ":" +:+ json_quote v
  | (k, v) :: rest => json_quote k +:+ ":" +:+ json_quote v +:+ "," +:+ json_fields rest
  end.

Definition JSON_stringify (fields : list (string * string)) : string :=
  "{" +:+ json_fields fields +:+ "}".

(* ===================================================================== *)
(** * Data model *)
(* ===================================================================== *)

(** Orders and line items as the upstream API delivers them, with the
    fields the function reads. *)
Record LineItem : Type := {
  product_id : JsVal;
  quantity : Z
}.

Record Order : Type := {
  order_number : Z;
  line_items : list LineItem
}.

Record Image : Type := { src : option string }.
Record Product : Type := { image : option Image }.

(** The object a response body decodes to; a field that is absent (or
    [null]) is [None]. *)
Record JsonData : Type := {
  orders : option (list Order);
  product : option Product
}.

Record Request : Type := {
  url : string;
  headers : list (string * string)
}.

(** A response of [fetch], fully received. [json] is what
    [response.json()] settles to: [inl msg] when it rejects. *)
Record Response : Type := {
  ok : bool;
  statusText : string;
  link : option string;          (* response.headers.get('link') *)
  body : string;                 (* response.body / response.text() *)
  json : string + JsonData
}.

(** How the promise returned by [fetch] settles. *)
Inductive Outcome : Type :=
  | Rejected (message : string)
  | Resolved (r : Response).

Record ArchiveEntry : Type := {
  name : string;
  content : string
}.

Record StoreOptions : Type := {
  store_name : string;
  siteID : option string;
  token : option string
}.

Record BlobConfig : Type := {
  config_siteID : option string;
  config_token : option string
}.

Record Credentials : Type := {
  SHOPIFY_STORE_NAME : string;
  ADMIN_API_ACCESS_TOKEN : string;
  API_VERSION : string
}.

Record HttpEvent : Type := {
  httpMethod : string;
  event_body : string
}.

Record HttpResponse : Type := {
  statusCode : Z;
  resp_headers : list (string * string);
  resp_body : string
}.

(** The variables the handler reads from [process.env]; [None] is a
    variable that is not set. *)
Record ProcessEnv : Type := {
  env_SHOPIFY_STORE_NAME : option string;
  env_ADMIN_API_ACCESS_TOKEN : option string;
  env_API_VERSION : option string;
  NETLIFY_SITE_ID : option string;
  NETLIFY_API_TOKEN : option string
}.

(** The request body of the endpoint, decoded. *)
Inductive Body : Type :=
  | BodyDate (date : string)
  | BodyRange (start_num end_num : Z)
  | BodyOther.

(* ===================================================================== *)
(** * The outside world *)
(* ===================================================================== *)

(** Everything the function reaches outside itself.  The operations are
    deterministic functions of the world's state; the world decides how
    each request is answered.  Every request of the model is answered:
    a request that never settles leaves a run without outcome, and such
    a run is not a run of this model. *)
Record Env : Type := {
  World : Type;
  (* fetch(url, options): how the promise settles *)
  net_fetch : Request -> World -> Outcome * World;
  (* new Date(): the time value of now *)
  date_now : World -> Z * World;
  uuidv4 : World -> string * World;
  (* getStore(options): [Some msg] when the library throws *)
  blobs_getStore : StoreOptions -> World -> option string * World;
  (* store.set(key, archive, ...): [Some msg] when the upload is rejected *)
  blobs_upload :
    StoreOptions -> string -> list ArchiveEntry -> World -> option string * World;
  (* store.get(key, { type: 'url' }): [inl msg] when it is rejected *)
  blobs_get_url : StoreOptions -> string -> World -> (string + string) * World;
  (* new Date(string): the time value, [None] for the invalid date *)
  Date_parse : string -> option Z;
  (* JSON.parse(event.body): [inl msg] when it throws *)
  JSON_parse : string -> string + Body
}.

(** What an observer of the function sees, in order. *)
Inductive Event : Type :=
  | EvFetch (req : Request) (o : Outcome)
  | EvConsoleError (args : list string)
  | EvGetStore (opts : StoreOptions)
  | EvSet (key : string) (ttl : Z)
  | EvFinalize (archive : list ArchiveEntry)
  | EvGetUrl (key : string).

(** The outcome of running a piece of code: a value, a thrown error with
    its message, or no outcome within the allotted number of loop
    iterations. *)
Inductive Res (A : Type) : Type :=
  | Ok (a : A)
  | Throw (message : string)
  | Diverge.
Arguments Ok {A} a.
Arguments Throw {A} message.
Arguments Diverge {A}.

(* ===================================================================== *)
(** * A scripted world *)
(* ===================================================================== *)

(** A world that answers the requests it receives, whatever they are,
    with the outcomes of a script, in order, and rejects the requests
    made once the script is exhausted.  Its clock is fixed, its blob
    store accepts everything, and it understands dates of the form
    [YYYY-MM-DD] and two request bodies. *)

Definition digit_of (c : ascii) : option Z :=
  let n := Z.of_N (N_of_ascii c) in
  if (48 <=? n) && (n <=? 57) then Some (n - 48) else None.

Fixpoint number_of (s : string) (acc : Z) : option Z :=
  match s with
  | EmptyString => Some acc
  | String c r =>
      match digit_of c with
      | Some d => number_of r (10 * acc + d)
      | None => None
      end
  end.

(** The day number of a date of the proleptic Gregorian calendar. *)
Definition days_from_civil (y m d : Z) : Z :=
  let y := if m <=? 2 then y - 1 else y in
  let era := y / 400 in
  let yoe := y - era * 400 in
  let doy := (153 * (if 2 <? m then m - 3 else m + 9) + 2) / 5 + d - 1 in
  let doe := yoe * 365 + yoe / 4 - yoe / 100 + doy in
  era * 146097 + doe - 719468.

Definition parse_iso_date (s : string) : option Z :=
  match number_of (String.substring 0 4 s) 0,
        number_of (String.substring 5 2 s) 0,
        number_of (String.substring 8 2 s) 0 with
  | Some y, Some m, Some d =>
      if (String.length s =? 10)%nat
         && bool_decide (String.get 4 s = Some "-"%char)
         && bool_decide (String.get 7 s = Some "-"%char)
         && (1 <=? m) && (m <=? 12) && (1 <=? d) && (d <=? 31)
      then Some (days_from_civil y m d * msPerDay)
      else None
  | _, _, _ => None
  end.

Definition date_body : string :=
  JSON_stringify [("type", "date"); ("date", "2024-05-01")].

Definition range_body : string :=
  "{" +:+ json_quote "type" +:+ ":" +:+ json_quote "order_range" +:+ "," +:+
  json_quote "start" +:+ ":100," +:+ json_quote "end" +:+ ":120}".

Definition parse_body (s : string) : string + Body :=
  if String.eqb s date_body then inr (BodyDate "2024-05-01")
  else if String.eqb s range_body then inr (BodyRange 100 120)
  else inl "Unexpected token in JSON".

Definition scripted : Env :=
  {| World := list Outcome;
     net_fetch := fun _ w =>
       match w with
       | [] => (Rejected "request failed", [])
       | o :: w' => (o, w')
       end;
     date_now := fun w => (1714564800000, w);
     uuidv4 := fun w => ("6f1c2d9e-3b7a-4c58-9e21-0a4d5b6c7d8e", w);
     blobs_getStore := fun _ w => (None, w);
     blobs_upload := fun _ _ _ w => (None, w);
     blobs_get_url := fun _ key w => (inr ("https://blobs.example/" +:+ key), w);
     Date_parse := parse_iso_date;
     JSON_parse := parse_body |}.

Definition shop : Credentials :=
  {| SHOPIFY_STORE_NAME := "demo-shop";
     ADMIN_API_ACCESS_TOKEN := "shpat_0123";
     API_VERSION := "2024-04" |}.

Definition shop_env : ProcessEnv :=
  {| env_SHOPIFY_STORE_NAME := Some "demo-shop";
     env_ADMIN_API_ACCESS_TOKEN := Some "shpat_0123";
     env_API_VERSION := None;
     NETLIFY_SITE_ID := Some "site-1";
     NETLIFY_API_TOKEN := Some "nfp_0123" |}.

(** Responses. *)
Definition orders_page (l : list Order) (lnk : option string) : Response :=
  {| ok := true; statusText := "OK"; link := lnk; body := "";
     json := inr {| orders := Some l; product := None |} |}.

Definition product_page (image_src : option string) : Response :=
  {| ok := true; statusText := "OK"; link := None; body := "";
     json := inr {| orders := None;
                    product := Some {| image := (fun u => {| src := Some u |}) <$> image_src |} |} |}.

Definition image_file (bytes : string) : Response :=
  {| ok := true; statusText := "OK"; link := None; body := bytes;
     json := inl "Unexpected token in JSON" |}.

Definition throttled : Response :=
  {| ok := false; statusText := "Too Many Requests"; link := None;
     body := "Exceeded 2 calls per second";
     json := inl "Unexpected token in JSON" |}.

Definition not_found : Response :=
  {| ok := false; statusText := "Not Found"; link := None; body := "";
     json := inl "Unexpected end of JSON input" |}.

(** A [link] header that names [u] as the next page. *)
Definition next_link (u : string) : option string :=
  Some ("<" +:+ u +:+ ">; " +:+ rel_next).

Definition page_url (cursor : string) : string :=
  "https://demo-shop.myshopify.com/admin/api/2024-04/orders.json?limit=250&page_info=" +:+
  cursor.

Definition numbered (n : Z) : Order := {| order_number := n; line_items := [] |}.

Definition line (pid q : Z) : LineItem := {| product_id := JsNum pid; quantity := q |}.

(** Three downloads, the second of which fails. *)
Definition gallery : list string :=
  ["https://cdn.example/a.jpg"; "https://cdn.example/b.jpg"; "https://cdn.example/c.jpg"].

Definition gallery_answers : list Outcome :=
  [Resolved (image_file "AAA"); Resolved not_found; Resolved (image_file "CCC")].

(** Open orders 200, 150, 110, 90, 50 on three pages. *)
Definition first_page_url : string :=
  "https://demo-shop.myshopify.com/admin/api/2024-04/orders.json?status=open&limit=250".

Definition five_orders : list (string * Response) :=
  [(first_page_url,
    orders_page [numbered 200; numbered 150] (next_link (page_url "p2")));
   (page_url "p2",
    orders_page [numbered 110; numbered 90] (next_link (page_url "p3")));
   (page_url "p3", orders_page [numbered 50] None)].

(** Open orders 110 and 105, with an empty page between them. *)
Definition gapped_orders : list (string * Response) :=
  [(first_page_url, orders_page [numbered 110] (next_link (page_url "p2")));
   (page_url "p2", orders_page [] (next_link (page_url "p3")));
   (page_url "p3", orders_page [numbered 105] None)].

(** The world that serves a chain of pages. *)
Definition serving (chain : list (string * Response)) : list Outcome :=
  (Resolved ∘ snd) <$> chain.

Definition image_u1 : string := "https://cdn.example/u1.jpg".
Definition image_u3 : string := "https://cdn.example/u3.jpg".

(** Order A: product 11, twice; order B: product 12, once. *)
Definition two_orders : list Order :=
  [{| order_number := 1001; line_items := [line 11 2] |};
   {| order_number := 1002; line_items := [line 12 1] |}].

(** One order with three line items of the same product. *)
Definition same_product : list Order :=
  [{| order_number := 1003; line_items := [line 7 1; line 7 2; line 7 1] |}].

(** One order with three products. *)
Definition three_products : list Order :=
  [{| order_number := 1004; line_items := [line 11 1; line 12 1; line 13 2] |}].

Definition date_event : HttpEvent :=
  {| httpMethod := "POST"; event_body := date_body |}.


(** The scripted world with a blob store that is not configured. *)
Definition unconfigured : Env :=
  {| World := World scripted;
     net_fetch := net_fetch scripted;
     date_now := date_now scripted;
     uuidv4 := uuidv4 scripted;
     blobs_getStore := fun _ w =>
       (Some "The environment has not been configured to use Netlify Blobs", w);
     blobs_upload := blobs_upload scripted;
     blobs_get_url := blobs_get_url scripted;
     Date_parse := Date_parse scripted;
     JSON_parse := JSON_parse scripted |}.

(** The scripted world with a blob store that gives no URL. *)
Definition without_url : Env :=
  {| World := World scripted;
     net_fetch := net_fetch scripted;
     date_now := date_now scripted;
     uuidv4 := uuidv4 scripted;
     blobs_getStore := blobs_getStore scripted;
     blobs_upload := blobs_upload scripted;
     blobs_get_url := fun _ _ w => (inl "403 Forbidden", w);
     Date_parse := Date_parse scripted;
     JSON_parse := JSON_parse scripted |}.

(** Open orders 50, 90, 110, 150 in ascending order, on two pages. *)
Definition ascending_orders : list (string * Response) :=
  [(first_page_url,
    orders_page [numbered 50; numbered 90] (next_link (page_url "p2")));
   (page_url "p2", orders_page [numbered 110; numbered 150] None)].

Definition blob_config : BlobConfig :=
  {| config_siteID := Some "site-1"; config_token := Some "nfp_0123" |}.

(** The orders of a date, their two products, and two downloads of which
    the second fails. *)
Definition one_failed_download : list Outcome :=
  [Resolved (orders_page two_orders None);
   Resolved (product_page (Some image_u1));
   Resolved (product_page None);
   Resolved (image_file "JFIF-1"); Resolved not_found].

Section Pipeline.

Context (E : Env).

Record State : Type := {
  world : World E;
  log : list Event
}.

(** The state in which an invocation starts. *)
Definition start (w : World E) : State := {| world := w; log := [] |}.

Definition M (A : Type) : Type := State -> Res A * State.

Definition ret {A} (a : A) : M A := fun s => (Ok a, s).

Definition bind {A B} (m : M A) (k : A -> M B) : M B :=
  fun s =>
    match m s with
    | (Ok a, s') => k a s'
    | (Throw e, s') => (Throw e, s')
    | (Diverge, s') => (Diverge, s')
    end.

Definition throw {A} (message : string) : M A := fun s => (Throw message, s).

Definition diverge {A} : M A := fun s => (Diverge, s).

(** [try { m } catch (e) { h e.message }] *)
Definition try_catch {A} (m : M A) (h : string -> M A) : M A :=
  fun s =>
    match m s with
    | (Throw e, s') => h e s'
    | r => r
    end.

Notation "'let*' x ':=' m 'in' k" := (bind m (fun x => k))
  (at level 10, x pattern, m at level 100, k at level 200).

Definition emit (ev : Event) : M unit :=
  fun s => (Ok tt, {| world := world s; log := log s ++ [ev] |}).

(** [await fetch(url, { headers })] *)
Definition fetch (req : Request) : M Response :=
  fun s =>
    let '(o, w) := net_fetch E req (world s) in
    let s' := {| world := w; log := log s ++ [EvFetch req o] |} in
    match o with
    | Rejected e => (Throw e, s')
    | Resolved r => (Ok r, s')
    end.

Definition console_error (args : list string) : M unit :=
  emit (EvConsoleError args).

(** [await response.json()] *)
Definition response_json (r : Response) : M JsonData :=
  match json r with
  | inl e => throw e
  | inr d => ret d
  end.

(** The fetch events of a log, in order. *)
Definition fetches (l : list Event) : list (Request * Outcome) :=
  omap (fun ev => match ev with EvFetch req o => Some (req, o) | _ => None end) l.

(** The archives finalized in a log. *)
Definition archives (l : list Event) : list (list ArchiveEntry) :=
  omap (fun ev => match ev with EvFinalize a => Some a | _ => None end) l.

(* ===================================================================== *)
(** * ArchiveStreamer *)
(* ===================================================================== *)

Definition image_name (k : nat) : string :=
  "image-" +:+ pretty k +:+ ".jpg".

Definition GET (u : string) : Request := {| url := u; headers := [] |}.

(** The [for] loop of [streamZipToBlobStorage]: [urls] is what remains of
    the list from index [i] on, [archive] the entries appended so far. *)
Fixpoint appendImages (urls : list string) (i : nat)
    (archive : list ArchiveEntry) : M (list ArchiveEntry) :=
  match urls with
  | [] => ret archive
  | u :: rest =>
      let* archive' :=
        try_catch
          (let* response := fetch (GET u) in
           if ok response
           then ret (archive ++ [{| name := image_name (i + 1);
                                    content := body response |}])
           else ret archive)
          (fun e =>
             let* _ := console_error ["Could not download " +:+ u +:+ ": " +:+ e] in
             ret archive) in
      appendImages rest (S i) archive'
  end.

(** [getStore({ name, siteID, token })]: the library throws when it finds
    no usable configuration. *)
Definition getStore (opts : StoreOptions) : M unit :=
  fun s =>
    let '(r, w) := blobs_getStore E opts (world s) in
    let s' := {| world := w; log := log s ++ [EvGetStore opts] |} in
    match r with
    | Some e => (Throw e, s')
    | None => (Ok tt, s')
    end.

(** [new Date()] *)
Definition new_Date : M Z :=
  fun s =>
    let '(t, w) := date_now E (world s) in
    (Ok t, {| world := w; log := log s |}).

Definition new_uuid : M string :=
  fun s =>
    let '(u, w) := uuidv4 E (world s) in
    (Ok u, {| world := w; log := log s |}).

(** [await uploadPromise] (line 86): the upload has consumed the archive
    stream up to its end, and settles on the finished archive.  The
    promise exists since line 70 and gets its handler only here: the
    model lets it settle here.  A rejection that arrives earlier, while
    a download or the finalize is awaited, is handled by nothing and
    ends the process; such a run has no outcome, and is not a run of
    this model. *)
Definition await_upload (opts : StoreOptions) (key : string)
    (archive : list ArchiveEntry) : M unit :=
  fun s =>
    let '(r, w) := blobs_upload E opts key archive (world s) in
    let s' := {| world := w; log := log s |} in
    match r with
    | Some e => (Throw e, s')
    | None => (Ok tt, s')
    end.

(** [await imagesStore.get(key, { type: 'url' })] *)
Definition store_get_url (opts : StoreOptions) (key : string) : M string :=
  fun s =>
    let '(r, w) := blobs_get_url E opts key (world s) in
    let s' := {| world := w; log := log s ++ [EvGetUrl key] |} in
    match r with
    | inl e => (Throw e, s')
    | inr u => (Ok u, s')
    end.

Definition lift_result {A} (r : string + A) : M A :=
  match r with
  | inl e => throw e
  | inr a => ret a
  end.

Definition streamZipToBlobStorage (urls : list string)
    (blobConfig : BlobConfig) : M string :=
  let imagesStore :=
    {| store_name := "shopify-images";
       siteID := config_siteID blobConfig;
       token := config_token blobConfig |} in
  let* _ := getStore imagesStore in
  let* now := new_Date in
  let* iso := lift_result (toISOString (Some now)) in
  let* id := new_uuid in
  let key := hd "" (split_on "T" iso) +:+ "-" +:+ id +:+ ".zip" in
  let* _ := emit (EvSet key 900) in
  let* archive := appendImages urls 0 [] in
  let* _ := emit (EvFinalize archive) in
  let* _ := await_upload imagesStore key archive in
  store_get_url imagesStore key.

(* ===================================================================== *)
(** * ImageResolver *)
(* ===================================================================== *)

Definition auth_headers (creds : Credentials) : list (string * string) :=
  [("X-Shopify-Access-Token", ADMIN_API_ACCESS_TOKEN creds)].

Definition api_base (creds : Credentials) : string :=
  "https://" +:+ SHOPIFY_STORE_NAME creds +:+ ".myshopify.com/admin/api/" +:+
  API_VERSION creds.

Definition product_request (creds : Credentials) (pid : JsVal) : Request :=
  {| url := api_base creds +:+ "/products/" +:+ ToString pid +:+ ".json";
     headers := auth_headers creds |}.

(** [product && product.image && product.image.src], when truthy. *)
Definition product_image_src (p : option Product) : option string :=
  match p with
  | Some pr =>
      match image pr with
      | Some im =>
          match src im with
          | Some u => if str_truthy u then Some u else None
          | None => None
          end
      | None => None
      end
  | None => None
  end.

(** The cache: product id to image URL, or to [null] ([None]). *)
Abbreviation Cache := (gmap JsVal (option string)).

(** Lines 100-117: the value of [imageUrl] after the [if]/[else], with
    the cache as it then is.  Every statement that can throw inside the
    [try] comes before the first assignment, so the handler sees
    [imageUrl] and the cache as they were. *)
Definition lookupImage (creds : Credentials) (pid : JsVal) (cache : Cache)
    : M (option string * Cache) :=
  match cache !! pid with
  | Some cached => ret (cached, cache)
  | None =>
      try_catch
        (let* response := fetch (product_request creds pid) in
         if ok response then
           let* data := response_json response in
           match product_image_src (product data) with
           | Some u => ret (Some u, <[pid := Some u]> cache)
           | None => ret (Some "", <[pid := None]> cache)
           end
         else ret (Some "", cache))
        (fun e =>
           let* _ := console_error
                       ["Failed to fetch product " +:+ ToString pid +:+ ":"; e] in
           ret (Some "", cache))
  end.

(** [for (let i = 0; i < q; i++) list.push(u)] *)
Definition push_times (l : list string) (u : string) (q : Z) : list string :=
  l ++ replicate (Z.to_nat q) u.

(** The body of the inner loop, on the two variables it updates. *)
Definition resolveItem (creds : Credentials) (item : LineItem)
    (st : list string * Cache) : M (list string * Cache) :=
  let '(finalImageUrlList, productImageCache) := st in
  if negb (truthy (product_id item)) then ret st
  else
    let* (imageUrl, productImageCache') :=
      lookupImage creds (product_id item) productImageCache in
    match imageUrl with
    | Some u =>
        if str_truthy u
        then ret (push_times finalImageUrlList u (quantity item), productImageCache')
        else ret (finalImageUrlList, productImageCache')
    | None => ret (finalImageUrlList, productImageCache')
    end.

(** [for (const x of l) { st = f x st }] *)
Fixpoint for_of {A B} (l : list A) (f : A -> B -> M B) (st : B) : M B :=
  match l with
  | [] => ret st
  | x :: rest => let* st' := f x st in for_of rest f st'
  end.

Definition getAllImageUrlsByQuantity (orders : list Order)
    (creds : Credentials) : M (list string) :=
  let* (finalImageUrlList, _) :=
    for_of orders
      (fun order st => for_of (line_items order) (resolveItem creds) st)
      ([], ∅) in
  ret finalImageUrlList.

(* ===================================================================== *)
(** * OrderFetcher *)
(* ===================================================================== *)

Definition getOrdersByDate (date : string) (creds : Credentials)
    : M (list Order) :=
  let startDate := setUTCHours (Date_parse E date) 0 0 0 0 in
  let endDate := setUTCHours (Date_parse E date) 23 59 59 999 in
  let* created_at_min := lift_result (toISOString startDate) in
  let* created_at_max := lift_result (toISOString endDate) in
  let params :=
    URLSearchParams_toString
      [("status", "open");
       ("created_at_min", created_at_min);
       ("created_at_max", created_at_max);
       ("limit", "250")] in
  let* response :=
    fetch {| url := api_base creds +:+ "/orders.json?" +:+ params;
             headers := auth_headers creds |} in
  if negb (ok response)
  then throw ("Shopify API error: " +:+ statusText response)
  else
    let* data := response_json response in
    ret (default [] (orders data)).

Definition range_first_url (creds : Credentials) : string :=
  api_base creds +:+ "/orders.json?status=open&limit=250".

Definition page_request (creds : Credentials) (u : string) : Request :=
  {| url := u; headers := auth_headers creds |}.

(** The [while (nextUrl)] loop, one iteration per unit of [fuel]. *)
Fixpoint range_loop (fuel : nat) (startNum : Z) (creds : Credentials)
    (nextUrl : option string) (allOrders : list Order) : M (list Order) :=
  match fuel with
  | O => diverge
  | S fuel' =>
      match nextUrl with
      | None => ret allOrders
      | Some u =>
          if negb (str_truthy u) then ret allOrders
          else
            let* response := fetch (page_request creds u) in
            if negb (ok response)
            then throw ("Shopify API error: " +:+ statusText response +:+
                        ". Details: " +:+ body response)
            else
              let* data := response_json response in
              let ordersPage := default [] (orders data) in
              match last ordersPage with
              | None => ret allOrders
              | Some oldest =>
                  let allOrders' := allOrders ++ ordersPage in
                  if order_number oldest <? startNum then ret allOrders'
                  else
                    let* nextUrl' := lift_result (next_page_url (link response)) in
                    range_loop fuel' startNum creds nextUrl' allOrders'
              end
      end
  end.

Definition in_range (startNum endNum : Z) (order : Order) : bool :=
  (startNum <=? order_number order) && (order_number order <=? endNum).

Definition getOrdersByNumberRange (fuel : nat) (startNum endNum : Z)
    (creds : Credentials) : M (list Order) :=
  let* allOrders :=
    range_loop fuel startNum creds (Some (range_first_url creds)) [] in
  ret (List.filter (in_range startNum endNum) allOrders).

(* ===================================================================== *)
(** * The handler *)
(* ===================================================================== *)

Definition respond (status : Z) (hs : list (string * string))
    (fields : list (string * string)) : HttpResponse :=
  {| statusCode := status; resp_headers := hs; resp_body := JSON_stringify fields |}.

(** Lines 31-51: what the handler does with the orders it fetched. *)
Definition bundle (orders : list Order) (creds : Credentials)
    (penv : ProcessEnv) : M HttpResponse :=
  match orders with
  | [] =>
      ret (respond 200 []
             [("message", "No unfulfilled orders found for the selected criteria.")])
  | _ :: _ =>
      let* imageUrls := getAllImageUrlsByQuantity orders creds in
      match imageUrls with
      | [] =>
          ret (respond 200 []
                 [("message", "No product images found in these unfulfilled orders.")])
      | _ :: _ =>
          let* downloadUrl :=
            streamZipToBlobStorage imageUrls
              {| config_siteID := NETLIFY_SITE_ID penv;
                 config_token := NETLIFY_API_TOKEN penv |} in
          ret (respond 200 [("Content-Type", "application/json")]
                 [("message", "Successfully bundled " +:+ pretty (length imageUrls) +:+
                              " images. Your download is ready.");
                  ("downloadUrl", downloadUrl)])
      end
  end.

(** Lines 13 and 20: the credentials object, with the default of
    [API_VERSION]. *)
Definition credentials_of (penv : ProcessEnv) : Credentials :=
  {| SHOPIFY_STORE_NAME := default "" (env_SHOPIFY_STORE_NAME penv);
     ADMIN_API_ACCESS_TOKEN := default "" (env_ADMIN_API_ACCESS_TOKEN penv);
     API_VERSION := default "2024-04" (env_API_VERSION penv) |}.

Definition handler (fuel : nat) (event : HttpEvent) (penv : ProcessEnv)
    : M HttpResponse :=
  if negb (String.eqb (httpMethod event) "POST")
  then ret (respond 405 [] [("message", "Method Not Allowed")])
  else if negb (opt_truthy (env_SHOPIFY_STORE_NAME penv))
          || negb (opt_truthy (env_ADMIN_API_ACCESS_TOKEN penv))
  then ret (respond 500 [] [("message", "Server configuration error.")])
  else
    try_catch
      (let* body := lift_result (JSON_parse E (event_body event)) in
       let credentials := credentials_of penv in
       match body with
       | BodyDate date =>
           let* orders := getOrdersByDate date credentials in
           bundle orders credentials penv
       | BodyRange startNum endNum =>
           let* orders := getOrdersByNumberRange fuel startNum endNum credentials in
           bundle orders credentials penv
       | BodyOther =>
           ret (respond 400 [] [("message", "Invalid request type.")])
       end)
      (fun e =>
         let* _ := console_error ["Error:"; e] in
         ret (respond 500 [] [("message", "An internal error occurred: " +:+ e)])).

(* ===================================================================== *)
(** * Specifications *)
(* ===================================================================== *)

(** ** ArchiveStreamer *)

(** How the world answers the downloads of [urls], one after the other,
    from the world [w]. *)
Fixpoint download_outcomes (urls : list string) (w : World E) : list Outcome :=
  match urls with
  | [] => []
  | u :: rest =>
      let '(o, w') := net_fetch E (GET u) w in
      o :: download_outcomes rest w'
  end.

(** A download succeeded: the promise resolved to a success response. *)
Definition downloaded (o : Outcome) : option Response :=
  match o with
  | Resolved r => if ok r then Some r else None
  | Rejected _ => None
  end.

(** The entry of the download at position [k] (from 0), if any. *)
Definition entry_at (k : nat) (o : Outcome) : list ArchiveEntry :=
  match downloaded o with
  | Some r => [{| name := image_name (k + 1); content := body r |}]
  | None => []
  end.

Definition entries_of (outcomes : list Outcome) : list ArchiveEntry :=
  concat (imap entry_at outcomes).

(** ** ImageResolver *)

(** The line items of the orders, in the order the loops visit them. *)
Definition items_of (orders : list Order) : list LineItem :=
  concat (line_items <$> orders).

Definition resolveItems (creds : Credentials) (items : list LineItem)
    (st : list string * Cache) : M (list string * Cache) :=
  for_of items (resolveItem creds) st.

(** An answer to a product lookup that the resolver records in its
    cache: a success response whose body decodes. *)
Definition cacheable (o : Outcome) : bool :=
  match o with
  | Resolved r => ok r && match json r with inr _ => true | inl _ => false end
  | Rejected _ => false
  end.

(** What a lookup that was answered by [o] leaves in [imageUrl] and in
    the cache. *)
Definition lookup_result (pid : JsVal) (cache : Cache) (o : Outcome)
    : option string * Cache :=
  match o with
  | Resolved r =>
      if ok r then
        match json r with
        | inr data =>
            match product_image_src (product data) with
            | Some u => (Some u, <[pid := Some u]> cache)
            | None => (Some "", <[pid := None]> cache)
            end
        | inl _ => (Some "", cache)
        end
      else (Some "", cache)
  | Rejected _ => (Some "", cache)
  end.

(** What happens to one line item, given the cache and the world it
    meets: the value tested at line 118 ([None] when the item is skipped
    or the cache holds [null]), the lookup it causes, and the cache and
    the world it leaves. *)
Record Step : Type := {
  image_url : option string;
  lookup_made : option (Request * Outcome);
  cache_after : Cache;
  world_after : World E
}.

Definition item_step (creds : Credentials) (item : LineItem)
    (cache : Cache) (w : World E) : Step :=
  let pid := product_id item in
  if negb (truthy pid)
  then {| image_url := None; lookup_made := None; cache_after := cache; world_after := w |}
  else
    match cache !! pid with
    | Some cached =>
        {| image_url := cached; lookup_made := None; cache_after := cache; world_after := w |}
    | None =>
        let answer := net_fetch E (product_request creds pid) w in
        {| image_url := fst (lookup_result pid cache (fst answer));
           lookup_made := Some (product_request creds pid, fst answer);
           cache_after := snd (lookup_result pid cache (fst answer));
           world_after := snd answer |}
    end.

Fixpoint steps (creds : Credentials) (items : list LineItem)
    (cache : Cache) (w : World E) : list Step :=
  match items with
  | [] => []
  | item :: rest =>
      let st := item_step creds item cache w in
      st :: steps creds rest (cache_after st) (world_after st)
  end.

(** The cache and the world after the items. *)
Fixpoint after (creds : Credentials) (items : list LineItem)
    (cache : Cache) (w : World E) : Cache * World E :=
  match items with
  | [] => (cache, w)
  | item :: rest =>
      let st := item_step creds item cache w in
      after creds rest (cache_after st) (world_after st)
  end.

(** The URLs a line item adds to the output, and how many it accounts
    for. *)
Definition contribution (item : LineItem) (st : Step) : list string :=
  match image_url st with
  | Some u => if str_truthy u then replicate (Z.to_nat (quantity item)) u else []
  | None => []
  end.

Definition resolved_quantity (item : LineItem) (st : Step) : Z :=
  if opt_truthy (image_url st) then quantity item else 0.

Definition contributions (creds : Credentials) (items : list LineItem)
    (cache : Cache) (w : World E) : list string :=
  concat (zip_with contribution items (steps creds items cache w)).

Definition lookups (creds : Credentials) (items : list LineItem)
    (cache : Cache) (w : World E) : list (Request * Outcome) :=
  omap lookup_made (steps creds items cache w).

(** The data model of line items: an identifier is a number when it is
    present, and a quantity is not negative. *)
Definition id_typed (item : LineItem) : Prop :=
  match product_id item with
  | JsNum _ | JsNull | JsUndefined => True
  | _ => False
  end.

Definition quantity_typed (item : LineItem) : Prop := 0 <= quantity item.

Definition sum_Z (l : list Z) : Z := foldr Z.add 0 l.

(** ** OrderFetcher *)

(** The messages of the errors the fetchers throw on a non-success
    response. *)
Definition date_error (r : Response) : string :=
  "Shopify API error: " +:+ statusText r.

Definition range_error (r : Response) : string :=
  "Shopify API error: " +:+ statusText r +:+ ". Details: " +:+ body r.

(** The request of the date mode for the UTC day number [day]. *)
Definition date_request (creds : Credentials) (day : Z) : Request :=
  {| url :=
       api_base creds +:+ "/orders.json?" +:+
       URLSearchParams_toString
         [("status", "open");
          ("created_at_min", format_date day +:+ "T00:00:00.000Z");
          ("created_at_max", format_date day +:+ "T23:59:59.999Z");
          ("limit", "250")];
     headers := auth_headers creds |}.

(** What the date mode makes of the answer to its request. *)
Definition date_result (o : Outcome) : Res (list Order) :=
  match o with
  | Rejected e => Throw e
  | Resolved r =>
      if ok r then
        match json r with
        | inr data => Ok (default [] (orders data))
        | inl e => Throw e
        end
      else Throw (date_error r)
  end.

(** The orders a page carries. *)
Definition orders_of (r : Response) : list Order :=
  match json r with
  | inr data => default [] (orders data)
  | inl _ => []
  end.

(** The traversal stops after a page that is empty or whose last order
    is below the start of the range. *)
Definition stop_page (startNum : Z) (page : list Order) : bool :=
  match last page with
  | None => true
  | Some oldest => order_number oldest <? startNum
  end.

(** The pages the traversal visits, out of the pages upstream. *)
Fixpoint visited (startNum : Z) (pages : list (list Order)) : list (list Order) :=
  match pages with
  | [] => []
  | page :: rest =>
      if stop_page startNum page then [page]
      else page :: visited startNum rest
  end.

(** The world serves the chain of pages [(u1, r1); (u2, r2); ...]: asked
    for [u1] it answers [r1], a success response that decodes and whose
    [link] header names [u2] as the next page, and so on; the last
    response names no next page. *)
Fixpoint serves (creds : Credentials) (chain : list (string * Response))
    (w : World E) : Prop :=
  match chain with
  | [] => True
  | (u, r) :: rest =>
      str_truthy u = true /\ ok r = true /\ (exists data, json r = inr data) /\
      match rest with
      | [] => exists n, next_page_url (link r) = inr n /\ opt_truthy n = false
      | (u', _) :: _ => next_page_url (link r) = inr (Some u')
      end /\
      exists w', net_fetch E (page_request creds u) w = (Resolved r, w') /\
                 serves creds rest w'
  end.

Definition page_event (creds : Credentials) (p : string * Response)
    : Request * Outcome :=
  (page_request creds (fst p), Resolved (snd p)).

(** ** The handler *)

(** The order fetch the handler runs for a request body, if any. *)
Definition order_fetch (fuel : nat) (body : Body) (creds : Credentials)
    : option (M (list Order)) :=
  match body with
  | BodyDate date => Some (getOrdersByDate date creds)
  | BodyRange startNum endNum =>
      Some (getOrdersByNumberRange fuel startNum endNum creds)
  | BodyOther => None
  end.

(** The events of fetching and resolving; those of the archive streamer
    (the blob store, the archive) are the others. *)
Definition quiet (ev : Event) : bool :=
  match ev with
  | EvFetch _ _ | EvConsoleError _ => true
  | _ => false
  end.

(** A computation that touches neither the blob store nor an archive. *)
Definition Quiet {A} (m : M A) : Prop :=
  forall s res s', m s = (res, s') ->
    exists tr, log s' = log s ++ tr /\ Forall (fun ev => quiet ev = true) tr.

(** ** The archive streamer as a whole *)

(** The world after the downloads of [urls]. *)
Fixpoint download_world (urls : list string) (w : World E) : World E :=
  match urls with
  | [] => w
  | u :: rest => download_world rest (snd (net_fetch E (GET u) w))
  end.

(** All the characters of a string satisfy [P]. *)
Fixpoint all_chars (P : ascii -> bool) (s : string) : bool :=
  match s with
  | EmptyString => true
  | String c r => P c && all_chars P r
  end.

(** The characters of a date: digits and the signs of a year. *)
Definition date_char (c : ascii) : bool :=
  let n := N_of_ascii c in
  ((48 <=? n) && (n <=? 57) || (n =? 45) || (n =? 43))%N.

(** The options of the store and the key of the archive. *)
Definition images_store (blobConfig : BlobConfig) : StoreOptions :=
  {| store_name := "shopify-images";
     siteID := config_siteID blobConfig;
     token := config_token blobConfig |}.

Definition archive_key (now : Z) (id : string) : string :=
  format_date (Day now) +:+ "-" +:+ id +:+ ".zip".

(** ** The [link] header *)

(** A character that may stand in the URL of a link: not the comma that
    separates links, not the [>] that closes the URL, not a line
    terminator. *)
Definition link_char (c : ascii) : bool :=
  negb (Ascii.eqb c ",") && negb (Ascii.eqb c ">") && negb (is_line_terminator c).

Definition no_comma (c : ascii) : bool := negb (Ascii.eqb c ",").

Definition rel_previous : string := "rel=" +:+ dquote +:+ "previous" +:+ dquote.

(** The header of a middle page: a link to the previous page, then a
    link to the next one. *)
Definition previous_and_next_link (p u : string) : option string :=
  Some ("<" +:+ p +:+ ">; " +:+ rel_previous +:+ ", <" +:+ u +:+ ">; " +:+ rel_next).

(** ** The image of an answer *)


(** ** What a traversal fetched *)

(** A request that was answered by a success response that decodes. *)
Definition page_received (ev : Event) : Prop :=
  exists req r data, ev = EvFetch req (Resolved r) /\ ok r = true /\ json r = inr data.

(** The orders of the pages of a log. *)
Definition orders_received (l : list Event) : list Order :=
  concat ((fun p => match snd p with
                    | Resolved r => orders_of r
                    | Rejected _ => []
                    end) <$> fetches l).

(* ===================================================================== *)
(** * Properties *)
(* ===================================================================== *)

(** ** The monad *)

Lemma bind_ok {A B} (m : M A) (k : A -> M B) s a s' :
  m s = (Ok a, s') -> bind m k s = k a s'.
Proof. unfold bind. intros ->. reflexivity. Qed.



(** A run is determined by its result and the state it leaves. *)
Lemma run_result {A} (m : M A) s res :
  fst (m s) = res -> m s = (res, snd (m s)).
Proof. intros <-. by destruct (m s). Qed.

Lemma fetches_app l1 l2 : fetches (l1 ++ l2) = fetches l1 ++ fetches l2.
Proof. unfold fetches. apply omap_app. Qed.

(** ** ArchiveStreamer *)

(** One turn of the loop never throws: it appends the entry of a
    successful download and nothing otherwise. *)
Lemma appendImages_step u i archive s :
  exists s',
    try_catch
      (let* response := fetch (GET u) in
       if ok response
       then ret (archive ++ [{| name := image_name (i + 1);
                                content := body response |}])
       else ret archive)
      (fun e =>
         let* _ := console_error ["Could not download " +:+ u +:+ ": " +:+ e] in
         ret archive) s
    = (Ok (archive ++ entry_at i (fst (net_fetch E (GET u) (world s)))), s')
    /\ world s' = snd (net_fetch E (GET u) (world s))
    /\ fetches (log s') =
       fetches (log s) ++ [(GET u, fst (net_fetch E (GET u) (world s)))].
Proof.
  unfold try_catch, bind, fetch, entry_at, downloaded.
  destruct (net_fetch E (GET u) (world s)) as [[e | r] w]; simpl.
  - eexists. split; [rewrite app_nil_r; reflexivity |].
    split; [reflexivity |]. simpl.
    rewrite !fetches_app. simpl. by rewrite app_nil_r.
  - destruct (ok r); simpl; eexists;
      (split; [try rewrite app_nil_r; reflexivity |]);
      (split; [reflexivity |]); simpl; by rewrite fetches_app.
Qed.

Lemma appendImages_spec urls : forall i archive s,
  exists s',
    appendImages urls i archive s =
      (Ok (archive ++ concat (imap (fun k => entry_at (i + k)) 
                                   (download_outcomes urls (world s)))), s')
    /\ fetches (log s') =
       fetches (log s) ++ zip (GET <$> urls) (download_outcomes urls (world s)).
Proof.
  induction urls as [| u rest IH]; intros i archive s; simpl.
  - exists s. by rewrite !app_nil_r.
  - destruct (appendImages_step u i archive s) as (s1 & Hrun & Hw & Hlog).
    rewrite (bind_ok _ _ _ _ _ Hrun).
    destruct (IH (S i) (archive ++ entry_at i (fst (net_fetch E (GET u) (world s)))) s1)
      as (s2 & Hrest & Hlog2).
    exists s2. rewrite Hrest, Hlog2, Hlog, Hw.
    destruct (net_fetch E (GET u) (world s)) as [o w]; simpl.
    split.
    + rewrite Nat.add_0_r, <- app_assoc.
      assert (Hext : imap (fun k => entry_at (S i + k)) (download_outcomes rest w) =
                     imap ((fun k => entry_at (i + k)) ∘ S) (download_outcomes rest w)).
      { apply imap_ext. intros k o' _. simpl. f_equal. lia. }
      simpl in Hext. rewrite Hext. reflexivity.
    + by rewrite <- app_assoc.
Qed.

Lemma download_outcomes_length urls : forall w,
  length (download_outcomes urls w) = length urls.
Proof.
  induction urls as [| u rest IH]; intros w; simpl; [reflexivity |].
  destruct (net_fetch E (GET u) w) as [o w']. simpl. by rewrite IH.
Qed.

Lemma entry_at_shift i (l : list Outcome) :
  imap ((fun k => entry_at (i + k)) ∘ S) l = imap (fun k => entry_at (S i + k)) l.
Proof. apply imap_ext. intros k o _. simpl. f_equal. lia. Qed.

Lemma entries_length (l : list Outcome) : forall i,
  length (concat (imap (fun k => entry_at (i + k)) l)) =
  length (List.filter (fun o => bool_decide (is_Some (downloaded o))) l).
Proof.
  induction l as [| o l IH]; intros i; [reflexivity |].
  rewrite imap_cons, entry_at_shift, concat_cons.
  rewrite length_app, IH, Nat.add_0_r. unfold entry_at. simpl.
  destruct (downloaded o) as [r |]; reflexivity.
Qed.

Lemma entries_elem (l : list Outcome) : forall i e,
  e ∈ concat (imap (fun k => entry_at (i + k)) l) <->
  exists k o r, l !! k = Some o /\ downloaded o = Some r /\
                e = {| name := image_name (i + k + 1); content := body r |}.
Proof.
  induction l as [| o l IH]; intros i e.
  - simpl. split; [intros H; inversion H | intros (k & o & r & H & _); by destruct k].
  - rewrite imap_cons, entry_at_shift, concat_cons, elem_of_app, IH, Nat.add_0_r.
    split.
    + intros [H | (k & o' & r & Hk & Hd & ->)].
      * exists 0%nat, o. unfold entry_at in H.
        destruct (downloaded o) as [r |]; [| inversion H].
        apply list_elem_of_singleton in H. exists r. by rewrite Nat.add_0_r.
      * exists (S k), o', r. repeat split; try done.
        do 2 f_equal. lia.
    + intros (k & o' & r & Hk & Hd & ->). destruct k as [| k]; simpl in Hk.
      * left. injection Hk as <-. unfold entry_at. rewrite Hd, Nat.add_0_r.
        apply list_elem_of_singleton. reflexivity.
      * right. exists k, o', r. repeat split; try done.
        do 2 f_equal. lia.
Qed.

(** ** ImageResolver *)

Lemma lookupImage_hit creds pid (cache : Cache) cached s :
  cache !! pid = Some cached ->
  lookupImage creds pid cache s = (Ok (cached, cache), s).
Proof. unfold lookupImage. intros ->. reflexivity. Qed.

Lemma lookupImage_miss creds pid (cache : Cache) s :
  cache !! pid = None ->
  exists s',
    lookupImage creds pid cache s =
      (Ok (lookup_result pid cache (fst (net_fetch E (product_request creds pid) (world s)))),
       s')
    /\ world s' = snd (net_fetch E (product_request creds pid) (world s))
    /\ fetches (log s') =
       fetches (log s) ++
       [(product_request creds pid, fst (net_fetch E (product_request creds pid) (world s)))].
Proof.
  unfold lookupImage. intros ->.
  unfold try_catch, bind, fetch, lookup_result, response_json.
  destruct (net_fetch E (product_request creds pid) (world s)) as [[e | r] w]; simpl.
  - eexists. split; [reflexivity |]. split; [reflexivity |]. simpl.
    rewrite !fetches_app. simpl. by rewrite app_nil_r.
  - destruct (ok r); simpl.
    + destruct (json r) as [e | data]; simpl.
      * eexists. split; [reflexivity |]. split; [reflexivity |]. simpl.
        rewrite !fetches_app. simpl. by rewrite app_nil_r.
      * destruct (product_image_src (product data)); simpl;
          eexists; (split; [reflexivity |]); (split; [reflexivity |]);
          simpl; by rewrite fetches_app.
    + eexists. split; [reflexivity |]. split; [reflexivity |].
      simpl. by rewrite fetches_app.
Qed.

(** One line item: the loop body never throws, and does what
    [item_step] says. *)
Lemma resolveItem_spec creds item final (cache : Cache) s :
  let st := item_step creds item cache (world s) in
  exists s',
    resolveItem creds item (final, cache) s =
      (Ok (final ++ contribution item st, cache_after st), s')
    /\ world s' = world_after st
    /\ fetches (log s') = fetches (log s) ++ option_list (lookup_made st).
Proof.
  unfold resolveItem, item_step, contribution, push_times.
  destruct (truthy (product_id item)); simpl.
  2: { exists s. by rewrite !app_nil_r. }
  destruct (cache !! product_id item) as [cached |] eqn:Hc; simpl.
  - rewrite (bind_ok _ _ _ _ _ (lookupImage_hit creds _ _ _ s Hc)).
    exists s. destruct cached as [u |]; [destruct (str_truthy u) |];
      by rewrite !app_nil_r.
  - destruct (lookupImage_miss creds _ _ s Hc) as (s' & Hrun & Hw & Hlog).
    rewrite (bind_ok _ _ _ _ _ Hrun). exists s'.
    destruct (lookup_result _ _ _) as [[u |] cache']; simpl;
      [destruct (str_truthy u) |]; by rewrite ?app_nil_r.
Qed.

Lemma resolveItems_spec creds items : forall final (cache : Cache) s,
  exists s',
    resolveItems creds items (final, cache) s =
      (Ok (final ++ contributions creds items cache (world s),
           fst (after creds items cache (world s))), s')
    /\ world s' = snd (after creds items cache (world s))
    /\ fetches (log s') = fetches (log s) ++ lookups creds items cache (world s).
Proof.
  unfold resolveItems, contributions, lookups.
  induction items as [| item rest IH]; intros final cache s; simpl.
  - exists s. by rewrite !app_nil_r.
  - destruct (resolveItem_spec creds item final cache s) as (s1 & Hrun & Hw & Hlog).
    rewrite (bind_ok _ _ _ _ _ Hrun).
    destruct (IH (final ++ contribution item (item_step creds item cache (world s)))
                 (cache_after (item_step creds item cache (world s))) s1)
      as (s2 & Hrest & Hw2 & Hlog2).
    exists s2. rewrite Hrest, Hw2, Hlog2, Hlog, Hw.
    split; [by rewrite <- app_assoc |]. split; [reflexivity |].
    rewrite <- app_assoc. f_equal.
    by destruct (lookup_made (item_step creds item cache (world s))).
Qed.

Lemma for_of_app {A B} (f : A -> B -> M B) l1 : forall l2 st s,
  for_of (l1 ++ l2) f st s = bind (for_of l1 f st) (for_of l2 f) s.
Proof.
  induction l1 as [| x l1 IH]; intros l2 st s; simpl; [reflexivity |].
  unfold bind.
  destruct (f x st s) as [[st' | e |] s']; [| reflexivity | reflexivity].
  rewrite IH. reflexivity.
Qed.

(** The nested loops visit the line items of [items_of]. *)
Lemma for_of_nested {B} (f : LineItem -> B -> M B) orders : forall st s,
  for_of orders (fun order st => for_of (line_items order) f st) st s =
  for_of (items_of orders) f st s.
Proof.
  unfold items_of.
  induction orders as [| order rest IH]; intros st s; simpl; [reflexivity |].
  rewrite for_of_app. unfold bind.
  destruct (for_of (line_items order) f st s) as [[st' | e |] s'];
    [apply IH | reflexivity | reflexivity].
Qed.

Lemma getAllImageUrlsByQuantity_spec orders creds s :
  exists s',
    getAllImageUrlsByQuantity orders creds s =
      (Ok (contributions creds (items_of orders) ∅ (world s)), s')
    /\ world s' = snd (after creds (items_of orders) ∅ (world s))
    /\ fetches (log s') =
       fetches (log s) ++ lookups creds (items_of orders) ∅ (world s).
Proof.
  unfold getAllImageUrlsByQuantity, bind. rewrite for_of_nested.
  destruct (resolveItems_spec creds (items_of orders) [] ∅ s) as (s' & Hrun & Hw & Hlog).
  unfold resolveItems in Hrun. rewrite Hrun. exists s'. simpl. done.
Qed.

Lemma steps_length creds items : forall (cache : Cache) w,
  length (steps creds items cache w) = length items.
Proof.
  induction items as [| item rest IH]; intros cache w; simpl; [reflexivity |].
  by rewrite IH.
Qed.

Lemma steps_app creds l1 : forall l2 (cache : Cache) w,
  steps creds (l1 ++ l2) cache w =
  steps creds l1 cache w ++
  steps creds l2 (fst (after creds l1 cache w)) (snd (after creds l1 cache w)).
Proof.
  induction l1 as [| item rest IH]; intros l2 cache w; simpl; [reflexivity |].
  by rewrite IH.
Qed.

Lemma contributions_app creds l1 l2 (cache : Cache) w :
  contributions creds (l1 ++ l2) cache w =
  contributions creds l1 cache w ++
  contributions creds l2 (fst (after creds l1 cache w)) (snd (after creds l1 cache w)).
Proof.
  unfold contributions.
  rewrite steps_app, zip_with_app by (by rewrite steps_length).
  apply concat_app.
Qed.

Lemma contribution_length item st :
  quantity_typed item ->
  Z.of_nat (length (contribution item st)) = resolved_quantity item st.
Proof.
  unfold quantity_typed, contribution, resolved_quantity, opt_truthy.
  intros Hq. destruct (image_url st) as [u |]; [| reflexivity].
  destruct (str_truthy u); [| reflexivity].
  rewrite length_replicate. lia.
Qed.

Lemma contributions_length creds items : forall (cache : Cache) w,
  Forall quantity_typed items ->
  Z.of_nat (length (contributions creds items cache w)) =
  sum_Z (zip_with resolved_quantity items (steps creds items cache w)).
Proof.
  unfold contributions.
  induction items as [| item rest IH]; intros cache w Hq; simpl; [reflexivity |].
  inversion Hq as [| ? ? Hitem Hrest]; subst.
  rewrite length_app, Nat2Z.inj_add, IH by assumption.
  by rewrite contribution_length.
Qed.

(** C5. For every list of orders whose quantities are not negative, the
    resolver returns, in the order of the orders and of the line items
    within each order, one block per line item: [quantity] copies of the
    image URL when the item's product resolved to a non-empty URL, and
    nothing otherwise.  So the length of the result is the sum of the
    quantities of the line items that resolved. *)
Theorem resolution_expands_by_quantity orders creds s :
  Forall quantity_typed (items_of orders) ->
  let items := items_of orders in
  let sts := steps creds items ∅ (world s) in
  exists urls s',
    getAllImageUrlsByQuantity orders creds s = (Ok urls, s')
    /\ urls =
       concat (zip_with
                 (fun item st =>
                    if opt_truthy (image_url st)
                    then replicate (Z.to_nat (quantity item))
                                   (default "" (image_url st))
                    else [])
                 items sts)
    /\ length sts = length items
    /\ Z.of_nat (length urls) =
       sum_Z (zip_with
                (fun item st => if opt_truthy (image_url st) then quantity item else 0)
                items sts).
Proof.
  intros Hq items sts.
  destruct (getAllImageUrlsByQuantity_spec orders creds s) as (s' & Hrun & _ & _).
  exists (contributions creds items ∅ (world s)), s'.
  split; [exact Hrun |]. split; [| split].
  - unfold contributions. f_equal.
    apply zip_with_ext; [| reflexivity..].
    intros item st. unfold contribution, opt_truthy.
    destruct (image_url st) as [u |]; [| reflexivity].
    by destruct (str_truthy u).
  - apply steps_length.
  - apply (contributions_length creds items ∅ (world s) Hq).
Qed.


(** A lookup whose answer is not cacheable leaves the cache as it was
    and resolves to no image. *)
Lemma lookup_result_failed pid (cache : Cache) o :
  cacheable o = false -> lookup_result pid cache o = (Some "", cache).
Proof.
  unfold cacheable, lookup_result. destruct o as [e | r]; [reflexivity |].
  destruct (ok r); [| reflexivity]. by destruct (json r).
Qed.

(** C9. The resolver returns a list for every list of orders, whatever
    the product lookups do.  When the lookup of one line item fails (the
    request is rejected, or answered by a non-success response, or by a
    body that does not decode), the result is made of the URLs of the
    items before it followed by the URLs of the items after it, the
    latter resolved with the cache as the earlier items left it: the
    failed item adds nothing and nothing else is lost. *)
Theorem failed_lookup_loses_only_its_item creds :
  (forall orders s, exists urls s',
      getAllImageUrlsByQuantity orders creds s = (Ok urls, s'))
  /\ (forall orders s pre item post,
        items_of orders = pre ++ item :: post ->
        let cache1 := fst (after creds pre ∅ (world s)) in
        let w1 := snd (after creds pre ∅ (world s)) in
        let answer := net_fetch E (product_request creds (product_id item)) w1 in
        truthy (product_id item) = true ->
        cache1 !! product_id item = None ->
        cacheable (fst answer) = false ->
        exists s',
          getAllImageUrlsByQuantity orders creds s =
            (Ok (contributions creds pre ∅ (world s) ++
                 contributions creds post cache1 (snd answer)), s')).
Proof.
  split.
  - intros orders s.
    destruct (getAllImageUrlsByQuantity_spec orders creds s) as (s' & Hrun & _).
    eauto.
  - intros orders s pre item post Hitems cache1 w1 answer Hid Hmiss Hfail.
    destruct (getAllImageUrlsByQuantity_spec orders creds s) as (s' & Hrun & _).
    exists s'. rewrite Hrun, Hitems. do 2 f_equal.
    rewrite contributions_app. f_equal.
    fold cache1 w1. unfold contributions. simpl.
    unfold item_step at 1 2 3. rewrite Hid, Hmiss. simpl.
    fold answer. rewrite (lookup_result_failed _ _ _ Hfail). reflexivity.
Qed.

(** The falsy values of a product identifier. *)
Lemma falsy_values v :
  truthy v = false <->
  v ∈ [JsUndefined; JsNull; JsBool false; JsNum 0; JsStr ""].
Proof.
  split.
  - destruct v as [| | [] | n | [| c s]]; simpl; try discriminate; intros H.
    + apply list_elem_of_here.
    + apply list_elem_of_further, list_elem_of_here.
    + do 2 apply list_elem_of_further. apply list_elem_of_here.
    + assert (n = 0) as -> by lia.
      do 3 apply list_elem_of_further. apply list_elem_of_here.
    + do 4 apply list_elem_of_further. apply list_elem_of_here.
  - intros H. repeat (apply elem_of_cons in H as [-> | H]; [reflexivity |]).
    inversion H.
Qed.

Lemma resolveItem_skip creds item st s :
  truthy (product_id item) = false ->
  resolveItem creds item st s = (Ok st, s).
Proof. unfold resolveItem. destruct st. by intros ->. Qed.

Lemma getAllImageUrlsByQuantity_items orders orders' creds s :
  (forall st s0,
     for_of (items_of orders) (resolveItem creds) st s0 =
     for_of (items_of orders') (resolveItem creds) st s0) ->
  getAllImageUrlsByQuantity orders creds s =
  getAllImageUrlsByQuantity orders' creds s.
Proof.
  intros H. unfold getAllImageUrlsByQuantity, bind.
  by rewrite !for_of_nested, H.
Qed.

(** C10. A line item whose [product_id] is falsy is skipped: the loop
    body returns at once with the output list, the cache, the world and
    the log as they were (no lookup, no cache entry, no URL), and the
    resolver behaves on the orders as it does on orders without that
    item. *)
Theorem falsy_product_id_is_skipped creds item :
  truthy (product_id item) = false ->
  (forall st s, resolveItem creds item st s = (Ok st, s))
  /\ (forall orders orders' pre post s,
        items_of orders = pre ++ item :: post ->
        items_of orders' = pre ++ post ->
        getAllImageUrlsByQuantity orders creds s =
        getAllImageUrlsByQuantity orders' creds s).
Proof.
  intros Hfalsy. split.
  - intros st s. by apply resolveItem_skip.
  - intros orders orders' pre post s H H'.
    apply getAllImageUrlsByQuantity_items. intros st s0.
    rewrite H, H', !for_of_app. unfold bind.
    destruct (for_of pre _ st s0) as [[st' | e |] s1]; [| reflexivity..].
    simpl. unfold bind. by rewrite resolveItem_skip.
Qed.

(** *** The cache *)

Lemma string_length_app (s1 s2 : string) :
  String.length (s1 +:+ s2) = (String.length s1 + String.length s2)%nat.
Proof. induction s1 as [| c s1 IH]; simpl; [reflexivity | by rewrite IH]. Qed.

Lemma string_app_inj_r (t s1 s2 : string) : s1 +:+ t = s2 +:+ t -> s1 = s2.
Proof.
  revert s2. induction s1 as [| c s1 IH]; intros [| c' s2] H; simpl in H.
  - reflexivity.
  - apply (f_equal String.length) in H.
    rewrite !string_length_app in H. simpl in H. lia.
  - apply (f_equal String.length) in H.
    rewrite !string_length_app in H. simpl in H. lia.
  - injection H as -> H. f_equal. by apply IH.
Qed.

(** Two numeric identifiers with the same product URL are equal. *)
Lemma product_request_inj creds a b :
  product_request creds (JsNum a) = product_request creds (JsNum b) -> a = b.
Proof.
  unfold product_request. intros H. injection H as H.
  do 2 apply String.app_inj in H. apply string_app_inj_r in H.
  simpl in H. by apply pretty_Z_inj in H.
Qed.

Lemma typed_truthy_id item :
  id_typed item -> truthy (product_id item) = true ->
  exists n, product_id item = JsNum n.
Proof.
  unfold id_typed. destruct (product_id item); simpl; try done; eauto.
Qed.

Lemma lookup_result_cache_None pid (cache : Cache) o p :
  snd (lookup_result pid cache o) !! p = None -> cache !! p = None.
Proof.
  unfold lookup_result. destruct o as [e | r]; [done |].
  destruct (ok r); [| done]. destruct (json r) as [e | data]; [done |].
  destruct (product_image_src (product data)); simpl;
    intros H; apply lookup_insert_None in H; tauto.
Qed.

Lemma lookup_result_cacheable pid (cache : Cache) o :
  cacheable o = true -> is_Some (snd (lookup_result pid cache o) !! pid).
Proof.
  unfold cacheable, lookup_result. destruct o as [e | r]; [done |].
  destruct (ok r); [| done]. destruct (json r) as [e | data]; [done |].
  intros _. destruct (product_image_src (product data)); simpl;
    rewrite lookup_insert_eq; eauto.
Qed.

Lemma lookups_skip creds item rest (cache : Cache) w :
  truthy (product_id item) = false ->
  lookups creds (item :: rest) cache w = lookups creds rest cache w.
Proof. unfold lookups, item_step. simpl. unfold item_step. by intros ->. Qed.

Lemma lookups_hit creds item rest (cache : Cache) w cached :
  truthy (product_id item) = true ->
  cache !! product_id item = Some cached ->
  lookups creds (item :: rest) cache w = lookups creds rest cache w.
Proof. unfold lookups. simpl. unfold item_step. by intros -> ->. Qed.

Lemma lookups_miss creds item rest (cache : Cache) w :
  truthy (product_id item) = true ->
  cache !! product_id item = None ->
  let answer := net_fetch E (product_request creds (product_id item)) w in
  lookups creds (item :: rest) cache w =
  (product_request creds (product_id item), fst answer) ::
  lookups creds rest (snd (lookup_result (product_id item) cache (fst answer)))
          (snd answer).
Proof. unfold lookups. simpl. unfold item_step. by intros -> ->. Qed.

(** Every lookup is for the identifier of a line item, one that the
    cache did not hold. *)
Lemma lookups_fresh creds items : forall (cache : Cache) w req o,
  (req, o) ∈ lookups creds items cache w ->
  exists item,
    item ∈ items /\ truthy (product_id item) = true /\
    req = product_request creds (product_id item) /\
    cache !! product_id item = None.
Proof.
  induction items as [| item rest IH]; intros cache w req o Hin.
  - inversion Hin.
  - destruct (truthy (product_id item)) eqn:Hid.
    2: { rewrite lookups_skip in Hin by done.
         destruct (IH _ _ _ _ Hin) as (it & ? & ? & ? & ?).
         exists it. split; [by apply list_elem_of_further | done]. }
    destruct (cache !! product_id item) as [cached |] eqn:Hc.
    + rewrite (lookups_hit _ _ _ _ _ cached) in Hin by done.
      destruct (IH _ _ _ _ Hin) as (it & ? & ? & ? & ?).
      exists it. split; [by apply list_elem_of_further | done].
    + rewrite lookups_miss in Hin by done.
      apply elem_of_cons in Hin as [Heq | Hin].
      * injection Heq as -> ->. exists item.
        split; [apply list_elem_of_here | done].
      * destruct (IH _ _ _ _ Hin) as (it & ? & ? & ? & Hnone).
        apply lookup_result_cache_None in Hnone.
        exists it. split; [by apply list_elem_of_further | done].
Qed.

Lemma lookups_once creds items : forall (cache : Cache) w i j req o o',
  Forall id_typed items ->
  (i < j)%nat ->
  lookups creds items cache w !! i = Some (req, o) ->
  lookups creds items cache w !! j = Some (req, o') ->
  cacheable o = false.
Proof.
  induction items as [| item rest IH]; intros cache w i j req o o' Hty Hij Hi Hj;
    [done |].
  inversion Hty as [| ? ? Hitem Hrest]; subst.
  destruct (truthy (product_id item)) eqn:Hid.
  2: { rewrite lookups_skip in Hi, Hj by done. by eauto. }
  destruct (cache !! product_id item) as [cached |] eqn:Hc.
  { rewrite (lookups_hit _ _ _ _ _ cached) in Hi, Hj by done. by eauto. }
  rewrite lookups_miss in Hi, Hj by done.
  destruct j as [| j]; [lia |].
  destruct i as [| i]; simpl in Hi, Hj.
  2: { eapply (IH _ _ i j); [done | lia | done..]. }
  injection Hi as <- <-.
  apply list_elem_of_lookup_2 in Hj.
  destruct (lookups_fresh creds rest _ _ _ _ Hj) as (it & Hin & Hid' & Hreq & Hnone).
  destruct (typed_truthy_id item Hitem Hid) as [a Ha].
  destruct (typed_truthy_id it) as [b Hb]; [| done |].
  { rewrite Forall_forall in Hrest. by apply Hrest. }
  rewrite Ha, Hb in Hreq. apply product_request_inj in Hreq. subst b.
  rewrite Hb, <- Ha in Hnone.
  destruct (cacheable _) eqn:Hcach; [| reflexivity].
  apply (lookup_result_cacheable (product_id item) cache) in Hcach.
  rewrite Hnone in Hcach. by destruct Hcach.
Qed.

(** C4 (amended). Within one run of the resolver over orders whose
    product identifiers are numbers, each lookup is for the identifier of
    a line item, and once a lookup has been answered by a success
    response whose body decodes (with or without an image), the same
    product is not looked up again: of two lookups of the same product,
    the earlier one was rejected, or answered by a non-success response
    or by a body that does not decode. *)
Theorem product_looked_up_once_after_answer orders creds s :
  Forall id_typed (items_of orders) ->
  let tr := lookups creds (items_of orders) ∅ (world s) in
  exists urls s',
    getAllImageUrlsByQuantity orders creds s = (Ok urls, s')
    /\ fetches (log s') = fetches (log s) ++ tr
    /\ (forall req o, (req, o) ∈ tr ->
          exists item, item ∈ items_of orders /\ truthy (product_id item) = true /\
                       req = product_request creds (product_id item))
    /\ (forall i j req o o',
          (i < j)%nat -> tr !! i = Some (req, o) -> tr !! j = Some (req, o') ->
          cacheable o = false).
Proof.
  intros Hty tr.
  destruct (getAllImageUrlsByQuantity_spec orders creds s) as (s' & Hrun & _ & Hlog).
  eexists _, s'. split; [exact Hrun |]. split; [exact Hlog |]. split.
  - intros req o Hin.
    destruct (lookups_fresh creds _ _ _ _ _ Hin) as (item & ? & ? & ? & _). eauto.
  - intros i j req o o' Hij Hi Hj. by eapply lookups_once.
Qed.

(** ** OrderFetcher *)

(** C3. Whatever the upstream answers, every order in a list returned by
    the range mode has its number within the range, bounds included. *)
Theorem range_fetch_within_range fuel startNum endNum creds s result s' :
  getOrdersByNumberRange fuel startNum endNum creds s = (Ok result, s') ->
  Forall (fun order => startNum <= order_number order <= endNum) result.
Proof.
  unfold getOrdersByNumberRange, bind, ret.
  destruct (range_loop fuel startNum creds _ [] s) as [[allOrders | e |] s1];
    intros H; inversion H; subst.
  apply List.Forall_forall. intros order Hin.
  apply List.filter_In in Hin as [_ Hin]. unfold in_range in Hin. lia.
Qed.

(** *** By date *)

Lemma within_day d k :
  0 <= k < msPerDay ->
  Day (d * msPerDay + k) = d /\ TimeWithinDay (d * msPerDay + k) = k.
Proof.
  unfold Day, TimeWithinDay, msPerDay. intros Hk. split.
  - rewrite Z.div_add_l, Z.div_small by lia. lia.
  - rewrite Z.add_comm, Z.mod_add, Z.mod_small by lia. reflexivity.
Qed.

Lemma day_is_representable t k :
  - maxTime <= t < maxTime -> 0 <= k < msPerDay ->
  TimeClip (Day t * msPerDay + k) = Some (Day t * msPerDay + k).
Proof.
  unfold TimeClip, Day, maxTime, msPerDay. intros Ht Hk.
  assert (H : Z.abs (t / 86400000 * 86400000 + k) <= 8640000000000000).
  { pose proof (Z.div_mod t 86400000 ltac:(lia)) as Hdm.
    pose proof (Z.mod_pos_bound t 86400000 ltac:(lia)) as Hm.
    assert (- 100000000 <= t / 86400000 < 100000000) by
      (split; [apply Z.div_le_lower_bound | apply Z.div_lt_upper_bound]; lia).
    lia. }
  apply Z.leb_le in H. by rewrite H.
Qed.

(** The ISO string of an instant within the day [Day t]. *)
Lemma toISOString_of_day t h m sec ms :
  - maxTime <= t < maxTime ->
  0 <= MakeTime h m sec ms < msPerDay ->
  toISOString (setUTCHours (Some t) h m sec ms) =
  inr (format_date (Day t) +:+ "T" +:+ format_time (MakeTime h m sec ms) +:+ "Z").
Proof.
  intros Ht Hk. unfold setUTCHours.
  rewrite day_is_representable by done. unfold toISOString.
  destruct (within_day (Day t) _ Hk) as [-> ->]. reflexivity.
Qed.

Lemma format_time_start : format_time (MakeTime 0 0 0 0) = "00:00:00.000".
Proof. vm_compute. reflexivity. Qed.

Lemma format_time_end : format_time (MakeTime 23 59 59 999) = "23:59:59.999".
Proof. vm_compute. reflexivity. Qed.

Lemma getOrdersByDate_spec date creds s t :
  Date_parse E date = Some t ->
  - maxTime <= t < maxTime ->
  let answer := net_fetch E (date_request creds (Day t)) (world s) in
  getOrdersByDate date creds s =
    (date_result (fst answer),
     {| world := snd answer;
        log := log s ++ [EvFetch (date_request creds (Day t)) (fst answer)] |}).
Proof.
  intros Hparse Ht answer. subst answer.
  set (req := date_request creds (Day t)).
  unfold getOrdersByDate. rewrite Hparse.
  rewrite !toISOString_of_day by (done || (vm_compute; split; congruence)).
  rewrite format_time_start, format_time_end.
  unfold lift_result, bind, ret.
  match goal with
  | |- context [fetch ?r] => replace r with req by reflexivity
  end.
  unfold fetch.
  destruct (net_fetch E req (world s)) as [[e | r] w]; [reflexivity |].
  cbn [date_result fst snd]. unfold date_error, throw, response_json.
  destruct (ok r); [| reflexivity].
  cbn [negb]. by destruct (json r).
Qed.

(** C7. For every date that parses to an instant whose UTC day can be
    represented, the date mode issues exactly one request: for the
    orders with [status=open], [created_at_min] that day at 00:00:00.000
    UTC, [created_at_max] that day at 23:59:59.999 UTC and [limit=250].
    It returns the orders of the page that answers it (the empty list
    when the page has none) and asks for no other page. *)
Theorem date_fetch_is_one_request date creds s t :
  Date_parse E date = Some t ->
  - maxTime <= t < maxTime ->
  let request :=
    {| url :=
         api_base creds +:+ "/orders.json?" +:+
         URLSearchParams_toString
           [("status", "open");
            ("created_at_min", format_date (Day t) +:+ "T00:00:00.000Z");
            ("created_at_max", format_date (Day t) +:+ "T23:59:59.999Z");
            ("limit", "250")];
       headers := [("X-Shopify-Access-Token", ADMIN_API_ACCESS_TOKEN creds)] |} in
  let answer := net_fetch E request (world s) in
  exists s',
    log s' = log s ++ [EvFetch request (fst answer)]
    /\ world s' = snd answer
    /\ fst (getOrdersByDate date creds s) = date_result (fst answer)
    /\ snd (getOrdersByDate date creds s) = s'
    /\ (forall r data,
          fst answer = Resolved r -> ok r = true -> json r = inr data ->
          getOrdersByDate date creds s = (Ok (default [] (orders data)), s')).
Proof.
  intros Hparse Ht request answer.
  pose proof (getOrdersByDate_spec date creds s t Hparse Ht) as Hrun.
  change (date_request creds (Day t)) with request in Hrun. fold answer in Hrun.
  cbv zeta in Hrun.
  exists {| world := snd answer; log := log s ++ [EvFetch request (fst answer)] |}.
  split; [reflexivity |]. split; [reflexivity |]. rewrite Hrun.
  split; [reflexivity |]. split; [reflexivity |].
  intros r data Heq Hok Hjson. f_equal.
  rewrite Heq. unfold date_result. by rewrite Hok, Hjson.
Qed.

(** *** By order-number range *)

(** One turn of the loop, by cases on the answer to its request. *)
Lemma range_loop_unfold fuel startNum creds u acc s :
  str_truthy u = true ->
  range_loop (S fuel) startNum creds (Some u) acc s =
  let answer := net_fetch E (page_request creds u) (world s) in
  let s1 := {| world := snd answer;
               log := log s ++ [EvFetch (page_request creds u) (fst answer)] |} in
  match fst answer with
  | Rejected e => (Throw e, s1)
  | Resolved r =>
      if ok r then
        match json r with
        | inl e => (Throw e, s1)
        | inr data =>
            let page := default [] (orders data) in
            if stop_page startNum page then (Ok (acc ++ page), s1)
            else
              match next_page_url (link r) with
              | inl e => (Throw e, s1)
              | inr nextUrl => range_loop fuel startNum creds nextUrl (acc ++ page) s1
              end
        end
      else (Throw (range_error r), s1)
  end.
Proof.
  intros Hu. cbn [range_loop]. rewrite Hu. cbn [negb].
  unfold bind at 1, fetch.
  destruct (net_fetch E (page_request creds u) (world s)) as [[e | r] w];
    cbn [fst snd]; [reflexivity |].
  destruct (ok r); cbn [negb]; [| reflexivity].
  unfold bind at 1, response_json.
  destruct (json r) as [e | data]; [reflexivity |].
  unfold ret at 1. cbv zeta. unfold stop_page.
  destruct (last (default [] (orders data))) as [oldest |] eqn:Hlast.
  - destruct (order_number oldest <? startNum); [reflexivity |].
    unfold bind, lift_result. by destruct (next_page_url (link r)).
  - apply last_None in Hlast. rewrite Hlast, app_nil_r. reflexivity.
Qed.

Lemma range_loop_done fuel startNum creds nextUrl acc s :
  opt_truthy nextUrl = false ->
  range_loop (S fuel) startNum creds nextUrl acc s = (Ok acc, s).
Proof.
  destruct nextUrl as [u |]; simpl; [| reflexivity]. by intros ->.
Qed.

(** A non-success response is the last event of the traversal, and the
    traversal throws the error made from it. *)
Lemma range_loop_aborts fuel startNum creds :
  forall nextUrl acc s res s',
    range_loop fuel startNum creds nextUrl acc s = (res, s') ->
    exists tr,
      log s' = log s ++ tr /\
      forall l1 req r l2,
        tr = l1 ++ EvFetch req (Resolved r) :: l2 -> ok r = false ->
        l2 = [] /\ res = Throw (range_error r).
Proof.
  induction fuel as [| fuel IH]; intros nextUrl acc s res s' Hrun.
  { injection Hrun as <- <-. exists []. split; [by rewrite app_nil_r |].
    intros [| ? ?] ? ? ? H; discriminate. }
  destruct (opt_truthy nextUrl) eqn:Hu.
  2: { rewrite range_loop_done in Hrun by done. injection Hrun as <- <-.
       exists []. split; [by rewrite app_nil_r |].
       intros [| ? ?] ? ? ? H; discriminate. }
  destruct nextUrl as [u |]; [| discriminate]. simpl in Hu.
  rewrite range_loop_unfold in Hrun by done. cbv zeta in Hrun.
  destruct (net_fetch E (page_request creds u) (world s)) as [o w].
  cbn [fst snd] in Hrun.
  assert (Hone : forall res0 : Res (list Order),
            (forall r, o = Resolved r -> ok r = false -> res0 = Throw (range_error r)) ->
            forall l1 req r l2,
              [EvFetch (page_request creds u) o] = l1 ++ EvFetch req (Resolved r) :: l2 ->
              ok r = false -> l2 = [] /\ res0 = Throw (range_error r)).
  { intros res0 Hres [| ? [| ? ?]] req r l2 Heq Hok; try discriminate.
    injection Heq as _ -> ->. split; [reflexivity |]. by apply Hres. }
  destruct o as [e | r].
  { injection Hrun as <- <-. eexists. split; [reflexivity |].
    apply Hone. intros ? ?; discriminate. }
  destruct (ok r) eqn:Hok.
  2: { injection Hrun as <- <-. eexists. split; [reflexivity |].
       apply Hone. intros ? [= <-] _. reflexivity. }
  assert (Hnot : forall (res0 : Res (list Order)) r0,
            Resolved r = Resolved r0 -> ok r0 = false -> res0 = Throw (range_error r0)).
  { intros res0 r0 [= <-] Hok0. congruence. }
  destruct (json r) as [e | data].
  { injection Hrun as <- <-. eexists. split; [reflexivity |]. apply Hone, Hnot. }
  destruct (stop_page startNum (default [] (orders data))).
  { injection Hrun as <- <-. eexists. split; [reflexivity |]. apply Hone, Hnot. }
  destruct (next_page_url (link r)) as [e | nextUrl].
  { injection Hrun as <- <-. eexists. split; [reflexivity |]. apply Hone, Hnot. }
  apply IH in Hrun as (tr & Hlog & Htr). cbn [log] in Hlog.
  exists (EvFetch (page_request creds u) (Resolved r) :: tr).
  split; [by rewrite Hlog, <- app_assoc |].
  intros [| ev l1] req r0 l2 Heq Hok0.
  - simpl in Heq. exfalso. congruence.
  - injection Heq as _ Heq. by eapply Htr.
Qed.

(** C6. A non-success response to the request for an order page aborts
    the fetch at once.  In the date mode the fetch throws the error
    [Shopify API error: <status text>]; in the range mode, whatever was
    accumulated from earlier pages, it throws
    [Shopify API error: <status text>. Details: <body text>].  In both
    modes that response is the last event (nothing is requested after
    it) and no list of orders is returned. *)
Theorem non_success_page_aborts_fetch creds :
  (forall date s t r,
      Date_parse E date = Some t -> - maxTime <= t < maxTime ->
      fst (net_fetch E (date_request creds (Day t)) (world s)) = Resolved r ->
      ok r = false ->
      exists s',
        getOrdersByDate date creds s =
          (Throw ("Shopify API error: " +:+ statusText r), s')
        /\ log s' = log s ++ [EvFetch (date_request creds (Day t)) (Resolved r)])
  /\ (forall fuel startNum endNum s res s',
        getOrdersByNumberRange fuel startNum endNum creds s = (res, s') ->
        exists tr,
          log s' = log s ++ tr /\
          forall l1 req r l2,
            tr = l1 ++ EvFetch req (Resolved r) :: l2 -> ok r = false ->
            l2 = [] /\
            res = Throw ("Shopify API error: " +:+ statusText r +:+
                         ". Details: " +:+ body r)).
Proof.
  split.
  - intros date s t r Hparse Ht Hans Hok.
    rewrite (getOrdersByDate_spec date creds s t Hparse Ht). cbv zeta.
    rewrite Hans. eexists.
    split; [unfold date_result, date_error; by rewrite Hok | reflexivity].
  - intros fuel startNum endNum s res s' Hrun.
    unfold getOrdersByNumberRange, bind in Hrun.
    destruct (range_loop fuel startNum creds _ [] s) as [res0 s0] eqn:Hloop.
    apply range_loop_aborts in Hloop as (tr & Hlog & Htr).
    exists tr.
    destruct res0 as [allOrders | e |]; injection Hrun as <- <-;
      (split; [exact Hlog |]); intros l1 req r l2 Heq Hok;
      destruct (Htr _ _ _ _ Heq Hok) as [-> Hres]; [discriminate | done | discriminate].
Qed.

(** The traversal of a chain of pages: it returns what it had plus the
    orders of the pages it visits, and requests exactly those pages. *)
Lemma range_loop_traverses startNum creds : forall chain fuel acc s u,
  head (fst <$> chain) = Some u ->
  serves creds chain (world s) ->
  (length chain < fuel)%nat ->
  let pages := (orders_of ∘ snd) <$> chain in
  exists s',
    range_loop fuel startNum creds (Some u) acc s =
      (Ok (acc ++ concat (visited startNum pages)), s')
    /\ fetches (log s') =
       fetches (log s) ++
       (page_event creds <$> take (length (visited startNum pages)) chain).
Proof.
  induction chain as [| [u0 r] rest IH]; intros fuel acc s u Hhead Hserves Hfuel;
    [discriminate |].
  injection Hhead as <-.
  destruct Hserves as (Hu & Hok & [data Hjson] & Hlink & w' & Hfetch & Hrest).
  destruct fuel as [| fuel]; [simpl in Hfuel; lia |].
  rewrite range_loop_unfold by done. rewrite Hfetch. cbv zeta. cbn [fst snd].
  rewrite Hok, Hjson.
  assert (Hpage : default [] (orders data) = orders_of r)
    by (unfold orders_of; by rewrite Hjson).
  rewrite Hpage. cbn [fmap list_fmap compose snd visited].
  destruct (stop_page startNum (orders_of r)).
  { eexists. split; [cbn [concat]; by rewrite app_nil_r |].
    cbn [log length take]. by rewrite fetches_app. }
  destruct rest as [| [u' r'] rest'].
  - destruct Hlink as (n & -> & Hn).
    destruct fuel as [| fuel]; [simpl in Hfuel; lia |].
    rewrite range_loop_done by done.
    eexists. split; [cbn [concat]; by rewrite app_nil_r |].
    cbn [log length take visited fmap list_fmap]. by rewrite fetches_app.
  - rewrite Hlink.
    edestruct (IH fuel (acc ++ orders_of r)
                 {| world := w';
                    log := log s ++ [EvFetch (page_request creds u0) (Resolved r)] |} u')
      as (s' & Hrun & Hlog); [reflexivity | exact Hrest | simpl in *; lia |].
    exists s'. rewrite Hrun, Hlog. split.
    + by rewrite <- app_assoc.
    + cbn [log length take fmap list_fmap]. rewrite fetches_app, <- app_assoc.
      reflexivity.
Qed.

Lemma filter_none {A} (f : A -> bool) l :
  (forall x, x ∈ l -> f x = false) -> List.filter f l = [].
Proof.
  induction l as [| x l IH]; intros H; simpl; [reflexivity |].
  rewrite (H x) by apply list_elem_of_here.
  apply IH. intros y Hy. apply H. by apply list_elem_of_further.
Qed.

(** When the orders come in descending order and only the last page may
    be empty, no order of the range lies beyond the page the traversal
    stops at. *)
Lemma visited_complete startNum endNum pages :
  StronglySorted Z.ge (order_number <$> concat pages) ->
  (forall i page, pages !! i = Some page -> (S i < length pages)%nat -> page <> []) ->
  List.filter (in_range startNum endNum) (concat (visited startNum pages)) =
  List.filter (in_range startNum endNum) (concat pages).
Proof.
  induction pages as [| page rest IH]; intros Hsorted Hgap; [reflexivity |].
  cbn [visited]. destruct (stop_page startNum page) eqn:Hstop.
  - cbn [concat]. rewrite !List.filter_app. f_equal. cbn [List.filter].
    symmetry. apply filter_none. intros o Ho.
    unfold stop_page in Hstop. destruct (last page) as [oldest |] eqn:Hlast.
    + apply last_Some_elem_of in Hlast.
      cbn [concat] in Hsorted. rewrite fmap_app in Hsorted.
      assert (order_number oldest >= order_number o) as Hge.
      { eapply StronglySorted_app_1_elem_of; [exact Hsorted | |];
          by apply list_elem_of_fmap_2. }
      unfold in_range. lia.
    + apply last_None in Hlast. destruct rest as [| page' rest'].
      * inversion Ho.
      * exfalso. apply (Hgap 0%nat page); [reflexivity | simpl; lia | exact Hlast].
  - cbn [concat]. rewrite !List.filter_app. f_equal. apply IH.
    + cbn [concat] in Hsorted. rewrite fmap_app in Hsorted.
      by apply StronglySorted_app_1_r in Hsorted.
    + intros i p Hi Hlen. apply (Hgap (S i) p); [exact Hi | simpl; lia].
Qed.

(** The visited pages are a prefix of the pages; the traversal goes on
    after each of them but the last, and when it leaves pages unvisited
    the last visited page is one it stops at. *)
Lemma visited_prefix startNum pages :
  let n := length (visited startNum pages) in
  visited startNum pages = take n pages
  /\ (forall i page, pages !! i = Some page -> (S i < n)%nat ->
        stop_page startNum page = false)
  /\ ((n < length pages)%nat ->
      exists page, pages !! (n - 1)%nat = Some page /\ stop_page startNum page = true).
Proof.
  induction pages as [| page rest IH]; cbn [visited].
  - split; [reflexivity |]. split; [intros i page H; discriminate | simpl; lia].
  - destruct (stop_page startNum page) eqn:Hstop.
    + cbn [length take]. split; [by rewrite take_0 |].
      split; [intros; lia |]. intros _. exists page. by split.
    + destruct IH as (Htake & Hgo & Hstopped). cbn [length take].
      split; [by rewrite <- Htake |]. split.
      * intros [| i] p Hi Hlt; [by injection Hi as <- |].
        apply (Hgo i p); [exact Hi | lia].
      * intros Hlt. destruct Hstopped as (p & Hp & Hs); [simpl in Hlt; lia |].
        exists p. split; [| exact Hs].
        destruct (length (visited startNum rest)) as [| k] eqn:Hk.
        -- destruct rest; [simpl in Hlt; lia |]. simpl in Hk.
           destruct (stop_page startNum l); discriminate.
        -- simpl. simpl in Hp. by rewrite Nat.sub_0_r in *.
Qed.

(** C2 (amended). For a range [S, E] and a chain of upstream pages whose
    orders, concatenated in traversal order, are in descending order of
    [order_number] and none of which but the last is empty, the range
    mode returns all the orders of the pages that lie in [S, E].  It
    requests the pages in order up to and including the first page that
    is empty or whose last order is below [S], or up to the last page,
    and requests nothing after it. *)
Theorem range_fetch_complete creds startNum endNum chain s fuel :
  head (fst <$> chain) = Some (range_first_url creds) ->
  serves creds chain (world s) ->
  (length chain < fuel)%nat ->
  let pages := (orders_of ∘ snd) <$> chain in
  StronglySorted Z.ge (order_number <$> concat pages) ->
  (forall i page, pages !! i = Some page -> (S i < length pages)%nat -> page <> []) ->
  let n := length (visited startNum pages) in
  exists s',
    getOrdersByNumberRange fuel startNum endNum creds s =
      (Ok (List.filter (in_range startNum endNum) (concat pages)), s')
    /\ fetches (log s') = fetches (log s) ++ (page_event creds <$> take n chain)
    /\ (forall i page, pages !! i = Some page -> (S i < n)%nat ->
          stop_page startNum page = false)
    /\ ((n < length pages)%nat ->
        exists page, pages !! (n - 1)%nat = Some page /\
                     stop_page startNum page = true).
Proof.
  intros Hhead Hserves Hfuel pages Hsorted Hgap n.
  destruct (range_loop_traverses startNum creds chain fuel [] s _ Hhead Hserves Hfuel)
    as (s' & Hrun & Hlog).
  destruct (visited_prefix startNum pages) as (_ & Hgo & Hstop).
  exists s'.
  split; [| split; [exact Hlog | split; [exact Hgo | exact Hstop]]].
  unfold getOrdersByNumberRange, bind. rewrite Hrun. unfold ret. f_equal.
  f_equal. by apply visited_complete.
Qed.

(** ** The handler *)

Lemma Quiet_ret {A} (a : A) : Quiet (ret a).
Proof. intros s res s' [= <- <-]. exists []. by rewrite app_nil_r. Qed.

Lemma Quiet_throw {A} e : Quiet (@throw A e).
Proof. intros s res s' [= <- <-]. exists []. by rewrite app_nil_r. Qed.

Lemma Quiet_diverge {A} : Quiet (@diverge A).
Proof. intros s res s' [= <- <-]. exists []. by rewrite app_nil_r. Qed.

Lemma Quiet_bind {A B} (m : M A) (k : A -> M B) :
  Quiet m -> (forall a, Quiet (k a)) -> Quiet (bind m k).
Proof.
  intros Hm Hk s res s' Hrun. unfold bind in Hrun.
  destruct (m s) as [[a | e |] s1] eqn:Hms;
    destruct (Hm _ _ _ Hms) as (tr1 & Hlog1 & Hq1).
  - destruct (Hk a _ _ _ Hrun) as (tr2 & Hlog2 & Hq2).
    exists (tr1 ++ tr2). rewrite Hlog2, Hlog1, app_assoc.
    split; [reflexivity | by apply Forall_app].
  - injection Hrun as <- <-. eauto.
  - injection Hrun as <- <-. eauto.
Qed.

Lemma Quiet_try_catch {A} (m : M A) (h : string -> M A) :
  Quiet m -> (forall e, Quiet (h e)) -> Quiet (try_catch m h).
Proof.
  intros Hm Hh s res s' Hrun. unfold try_catch in Hrun.
  destruct (m s) as [[a | e |] s1] eqn:Hms;
    destruct (Hm _ _ _ Hms) as (tr1 & Hlog1 & Hq1).
  - injection Hrun as <- <-. eauto.
  - destruct (Hh e _ _ _ Hrun) as (tr2 & Hlog2 & Hq2).
    exists (tr1 ++ tr2). rewrite Hlog2, Hlog1, app_assoc.
    split; [reflexivity | by apply Forall_app].
  - injection Hrun as <- <-. eauto.
Qed.

Lemma Quiet_fetch req : Quiet (fetch req).
Proof.
  intros s res s' Hrun. unfold fetch in Hrun.
  destruct (net_fetch E req (world s)) as [o w].
  exists [EvFetch req o].
  destruct o; injection Hrun as <- <-; split; try reflexivity;
    by repeat constructor.
Qed.

Lemma Quiet_console_error args : Quiet (console_error args).
Proof.
  intros s res s' [= <- <-]. exists [EvConsoleError args].
  split; [reflexivity | by repeat constructor].
Qed.

Lemma Quiet_lift_result {A} (r : string + A) : Quiet (lift_result r).
Proof. destruct r; [apply Quiet_throw | apply Quiet_ret]. Qed.

Lemma Quiet_response_json r : Quiet (response_json r).
Proof. unfold response_json. destruct (json r); [apply Quiet_throw | apply Quiet_ret]. Qed.

Lemma Quiet_for_of {A B} (f : A -> B -> M B) l :
  (forall x st, Quiet (f x st)) -> forall st, Quiet (for_of l f st).
Proof.
  intros Hf. induction l as [| x l IH]; intros st; simpl.
  - apply Quiet_ret.
  - apply Quiet_bind; [apply Hf | exact IH].
Qed.

Lemma Quiet_resolveItem creds item st : Quiet (resolveItem creds item st).
Proof.
  unfold resolveItem. destruct st as [final cache].
  destruct (negb _); [apply Quiet_ret |].
  apply Quiet_bind.
  - unfold lookupImage. destruct (cache !! product_id item); [apply Quiet_ret |].
    apply Quiet_try_catch.
    + apply Quiet_bind; [apply Quiet_fetch |]. intros r.
      destruct (ok r); [| apply Quiet_ret].
      apply Quiet_bind; [apply Quiet_response_json |]. intros data.
      destruct (product_image_src _); apply Quiet_ret.
    + intros e. apply Quiet_bind; [apply Quiet_console_error |].
      intros _. apply Quiet_ret.
  - intros [[u |] cache']; [destruct (str_truthy u) |]; apply Quiet_ret.
Qed.

Lemma Quiet_getAllImageUrlsByQuantity orders creds :
  Quiet (getAllImageUrlsByQuantity orders creds).
Proof.
  unfold getAllImageUrlsByQuantity. apply Quiet_bind.
  - apply Quiet_for_of. intros order st. apply Quiet_for_of.
    intros item st'. apply Quiet_resolveItem.
  - intros [final cache]. apply Quiet_ret.
Qed.

Lemma Quiet_getOrdersByDate date creds : Quiet (getOrdersByDate date creds).
Proof.
  unfold getOrdersByDate.
  apply Quiet_bind; [apply Quiet_lift_result |]. intros created_at_min.
  apply Quiet_bind; [apply Quiet_lift_result |]. intros created_at_max.
  apply Quiet_bind; [apply Quiet_fetch |]. intros r.
  destruct (negb (ok r)); [apply Quiet_throw |].
  apply Quiet_bind; [apply Quiet_response_json |]. intros data. apply Quiet_ret.
Qed.

Lemma Quiet_range_loop fuel startNum creds : forall nextUrl acc,
  Quiet (range_loop fuel startNum creds nextUrl acc).
Proof.
  induction fuel as [| fuel IH]; intros nextUrl acc; cbn [range_loop].
  - apply Quiet_diverge.
  - destruct nextUrl as [u |]; [| apply Quiet_ret].
    destruct (negb (str_truthy u)); [apply Quiet_ret |].
    apply Quiet_bind; [apply Quiet_fetch |]. intros r.
    destruct (negb (ok r)); [apply Quiet_throw |].
    apply Quiet_bind; [apply Quiet_response_json |]. intros data. cbv zeta.
    destruct (last _) as [oldest |]; [| apply Quiet_ret].
    destruct (_ <? _); [apply Quiet_ret |].
    apply Quiet_bind; [apply Quiet_lift_result |]. intros nextUrl'. apply IH.
Qed.

Lemma Quiet_getOrdersByNumberRange fuel startNum endNum creds :
  Quiet (getOrdersByNumberRange fuel startNum endNum creds).
Proof.
  unfold getOrdersByNumberRange.
  apply Quiet_bind; [apply Quiet_range_loop |]. intros allOrders. apply Quiet_ret.
Qed.

Lemma Quiet_appendImages urls : forall i archive,
  Quiet (appendImages urls i archive).
Proof.
  induction urls as [| u rest IH]; intros i archive; cbn [appendImages].
  - apply Quiet_ret.
  - apply Quiet_bind; [| intros archive'; apply IH].
    apply Quiet_try_catch.
    + apply Quiet_bind; [apply Quiet_fetch |]. intros r.
      destruct (ok r); apply Quiet_ret.
    + intros e. apply Quiet_bind; [apply Quiet_console_error |].
      intros _. apply Quiet_ret.
Qed.

(** The archive streamer is not quiet: its first step is logged, so a
    run in which it was invoked shows an event of the blob store. *)
Lemma streamZipToBlobStorage_is_logged urls blobConfig s :
  exists tr,
    log (snd (streamZipToBlobStorage urls blobConfig s)) =
    log s ++
    EvGetStore {| store_name := "shopify-images";
                  siteID := config_siteID blobConfig;
                  token := config_token blobConfig |} :: tr.
Proof.
  unfold streamZipToBlobStorage.
  set (opts := {| store_name := "shopify-images";
                  siteID := config_siteID blobConfig;
                  token := config_token blobConfig |}).
  unfold bind at 1, getStore.
  destruct (blobs_getStore E opts (world s)) as [[e |] w];
    [exists []; reflexivity |].
  unfold bind at 1, new_Date. cbn [world log].
  destruct (date_now E w) as [now w1].
  unfold bind at 1, lift_result, toISOString, ret at 1.
  unfold bind at 1, new_uuid. cbn [world log].
  destruct (uuidv4 E w1) as [id w2]. cbv zeta.
  set (key := hd "" _ +:+ "-" +:+ id +:+ ".zip").
  unfold bind at 1, emit. cbn [world log].
  set (s3 := {| world := w2; log := _ |}).
  unfold bind at 1.
  destruct (appendImages urls 0 [] s3) as [res4 s4] eqn:Hrun.
  destruct (Quiet_appendImages urls _ _ _ _ _ Hrun) as (tr4 & Htr4 & _).
  unfold s3 in Htr4. cbn [log] in Htr4. rewrite <- !app_assoc in Htr4.
  destruct res4 as [archive | e |]; cbn [snd]; [| by eauto | by eauto].
  unfold bind at 1, emit. cbn [world log].
  unfold bind at 1, await_upload. cbn [world log].
  destruct (blobs_upload E opts key _ (world s4)) as [[e |] w5]; cbn [snd log].
  - eexists. rewrite Htr4, <- !app_assoc. reflexivity.
  - unfold store_get_url. cbn [world log].
    destruct (blobs_get_url E opts key w5) as [[e | u] w6]; cbn [snd log];
      eexists; rewrite Htr4, <- !app_assoc; reflexivity.
Qed.

Lemma handler_runs_bundle fuel event penv body fetch_orders s orders s1 :
  httpMethod event = "POST" ->
  opt_truthy (env_SHOPIFY_STORE_NAME penv) = true ->
  opt_truthy (env_ADMIN_API_ACCESS_TOKEN penv) = true ->
  JSON_parse E (event_body event) = inr body ->
  order_fetch fuel body (credentials_of penv) = Some fetch_orders ->
  fetch_orders s = (Ok orders, s1) ->
  handler fuel event penv s =
  try_catch (bundle orders (credentials_of penv) penv)
    (fun e =>
       let* _ := console_error ["Error:"; e] in
       ret (respond 500 [] [("message", "An internal error occurred: " +:+ e)])) s1.
Proof.
  intros Hmethod Hstore Htoken Hparse Hfetch Hrun.
  unfold handler. rewrite Hmethod, Hstore, Htoken.
  replace (negb ("POST" =? "POST")%string) with false by reflexivity.
  cbn [negb orb].
  unfold try_catch at 1, bind at 1, lift_result. rewrite Hparse. unfold ret at 1.
  cbv zeta.
  destruct body as [date | startNum endNum |]; [| | discriminate];
    injection Hfetch as <-; unfold bind at 1; rewrite Hrun; reflexivity.
Qed.

(** C8. On a well-formed request whose order fetch returns no order, and
    on one whose orders resolve to no image URL, the handler answers
    with status 200 and a body that is an object with the single field
    [message]: there is no [downloadUrl].  The handler stops where the
    fetch (or the resolution) stopped: the only events of the run are
    requests and console messages, none is an event of the archive
    streamer. *)
Theorem empty_result_makes_no_archive fuel event penv body fetch_orders :
  httpMethod event = "POST" ->
  opt_truthy (env_SHOPIFY_STORE_NAME penv) = true ->
  opt_truthy (env_ADMIN_API_ACCESS_TOKEN penv) = true ->
  JSON_parse E (event_body event) = inr body ->
  order_fetch fuel body (credentials_of penv) = Some fetch_orders ->
  (forall s s1,
     fetch_orders s = (Ok [], s1) ->
     handler fuel event penv s =
       (Ok {| statusCode := 200;
              resp_headers := [];
              resp_body :=
                JSON_stringify
                  [("message",
                    "No unfulfilled orders found for the selected criteria.")] |},
        s1)
     /\ exists tr, log s1 = log s ++ tr /\ Forall (fun ev => quiet ev = true) tr)
  /\ (forall s orders s1 s2,
        fetch_orders s = (Ok orders, s1) ->
        orders <> [] ->
        getAllImageUrlsByQuantity orders (credentials_of penv) s1 = (Ok [], s2) ->
        handler fuel event penv s =
          (Ok {| statusCode := 200;
                 resp_headers := [];
                 resp_body :=
                   JSON_stringify
                     [("message",
                       "No product images found in these unfulfilled orders.")] |},
           s2)
        /\ exists tr, log s2 = log s ++ tr /\ Forall (fun ev => quiet ev = true) tr).
Proof.
  intros Hmethod Hstore Htoken Hparse Hfetch.
  assert (Hquiet : Quiet fetch_orders).
  { destruct body; simpl in Hfetch; [| | discriminate]; injection Hfetch as <-;
      [apply Quiet_getOrdersByDate | apply Quiet_getOrdersByNumberRange]. }
  split.
  - intros s s1 Hrun. split; [| by apply (Hquiet _ _ _ Hrun)].
    by rewrite (handler_runs_bundle _ _ _ _ _ _ _ _
                  Hmethod Hstore Htoken Hparse Hfetch Hrun).
  - intros s orders s1 s2 Hrun Hne Hres. split.
    + rewrite (handler_runs_bundle _ _ _ _ _ _ _ _
                 Hmethod Hstore Htoken Hparse Hfetch Hrun).
      destruct orders as [| order rest]; [done |].
      unfold try_catch, bundle, bind. by rewrite Hres.
    + destruct (Hquiet _ _ _ Hrun) as (tr1 & Hlog1 & Hq1).
      destruct (Quiet_getAllImageUrlsByQuantity _ _ _ _ _ Hres) as (tr2 & Hlog2 & Hq2).
      exists (tr1 ++ tr2). rewrite Hlog2, Hlog1, app_assoc.
      split; [reflexivity | by apply Forall_app].
Qed.

(* ===================================================================== *)
(** * Further properties *)
(* ===================================================================== *)

(** ** The handler: validation and failures *)

(** What the [catch] of the handler makes of an error. *)
Lemma handler_catch e s :
  (let* _ := console_error ["Error:"; e] in
   ret (respond 500 [] [("message", "An internal error occurred: " +:+ e)])) s =
  (Ok (respond 500 [] [("message", "An internal error occurred: " +:+ e)]),
   {| world := world s; log := log s ++ [EvConsoleError ["Error:"; e]] |}).
Proof. reflexivity. Qed.

(** A well-formed request runs the order fetch and then the rest of the
    pipeline, inside the [try]. *)
Lemma handler_runs_pipeline fuel event penv body fetch_orders s :
  httpMethod event = "POST" ->
  opt_truthy (env_SHOPIFY_STORE_NAME penv) = true ->
  opt_truthy (env_ADMIN_API_ACCESS_TOKEN penv) = true ->
  JSON_parse E (event_body event) = inr body ->
  order_fetch fuel body (credentials_of penv) = Some fetch_orders ->
  handler fuel event penv s =
  try_catch
    (let* orders := fetch_orders in bundle orders (credentials_of penv) penv)
    (fun e =>
       let* _ := console_error ["Error:"; e] in
       ret (respond 500 [] [("message", "An internal error occurred: " +:+ e)])) s.
Proof.
  intros Hmethod Hstore Htoken Hparse Hfetch.
  unfold handler. rewrite Hmethod, Hstore, Htoken.
  replace (negb ("POST" =? "POST")%string) with false by reflexivity.
  cbn [negb orb].
  unfold try_catch, bind at 1, lift_result. rewrite Hparse. unfold ret at 1.
  cbv zeta.
  destruct body as [date | startNum endNum |]; [| | discriminate];
    injection Hfetch as <-; reflexivity.
Qed.




(** X2. A request that fails validation is answered before any work is
    done.  A method other than POST gets 405, whatever else is wrong; a
    POST without store name or access token gets 500; a POST whose body
    names no known type gets 400: in each case the world and the log are
    as they were.  A POST whose body does not parse gets 500 with the
    message of the parse error, which is also written to the console,
    and nothing is requested. *)
Theorem handler_rejects_before_any_request fuel event penv s :
  (httpMethod event <> "POST" ->
   handler fuel event penv s =
     (Ok (respond 405 [] [("message", "Method Not Allowed")]), s))
  /\ (httpMethod event = "POST" ->
      opt_truthy (env_SHOPIFY_STORE_NAME penv) = false \/
      opt_truthy (env_ADMIN_API_ACCESS_TOKEN penv) = false ->
      handler fuel event penv s =
        (Ok (respond 500 [] [("message", "Server configuration error.")]), s))
  /\ (httpMethod event = "POST" ->
      opt_truthy (env_SHOPIFY_STORE_NAME penv) = true ->
      opt_truthy (env_ADMIN_API_ACCESS_TOKEN penv) = true ->
      (JSON_parse E (event_body event) = inr BodyOther ->
       handler fuel event penv s =
         (Ok (respond 400 [] [("message", "Invalid request type.")]), s))
      /\ (forall e,
            JSON_parse E (event_body event) = inl e ->
            handler fuel event penv s =
              (Ok (respond 500 [] [("message", "An internal error occurred: " +:+ e)]),
               {| world := world s;
                  log := log s ++ [EvConsoleError ["Error:"; e]] |}))).
Proof.
  split; [| split].
  - intros Hmethod. unfold handler.
    apply String.eqb_neq in Hmethod. by rewrite Hmethod.
  - intros Hmethod Hconfig. unfold handler. rewrite Hmethod.
    replace (negb ("POST" =? "POST")%string) with false by reflexivity.
    by destruct Hconfig as [-> | ->]; [| rewrite orb_true_r].
  - intros Hmethod Hstore Htoken. unfold handler. rewrite Hmethod, Hstore, Htoken.
    replace (negb ("POST" =? "POST")%string) with false by reflexivity.
    cbn [negb orb]. unfold try_catch, bind at 1, lift_result.
    split.
    + by intros ->.
    + intros e ->. unfold throw. apply handler_catch.
Qed.

(** X3. An error thrown while the orders are fetched, or while the
    archive is streamed, ends the request with status 500: the body is
    the object with the single field [message], which holds
    [An internal error occurred: ] followed by the message of the
    error, and the error is written to the console.  Nothing else
    happens after the error. *)
Theorem handler_reports_pipeline_failure fuel event penv body fetch_orders :
  httpMethod event = "POST" ->
  opt_truthy (env_SHOPIFY_STORE_NAME penv) = true ->
  opt_truthy (env_ADMIN_API_ACCESS_TOKEN penv) = true ->
  JSON_parse E (event_body event) = inr body ->
  order_fetch fuel body (credentials_of penv) = Some fetch_orders ->
  (forall s e s1,
     fetch_orders s = (Throw e, s1) ->
     handler fuel event penv s =
       (Ok (respond 500 [] [("message", "An internal error occurred: " +:+ e)]),
        {| world := world s1; log := log s1 ++ [EvConsoleError ["Error:"; e]] |}))
  /\ (forall s orders s1 imageUrls s2 e s3,
        fetch_orders s = (Ok orders, s1) ->
        orders <> [] ->
        getAllImageUrlsByQuantity orders (credentials_of penv) s1 = (Ok imageUrls, s2) ->
        imageUrls <> [] ->
        streamZipToBlobStorage imageUrls
          {| config_siteID := NETLIFY_SITE_ID penv;
             config_token := NETLIFY_API_TOKEN penv |} s2 = (Throw e, s3) ->
        handler fuel event penv s =
          (Ok (respond 500 [] [("message", "An internal error occurred: " +:+ e)]),
           {| world := world s3; log := log s3 ++ [EvConsoleError ["Error:"; e]] |})).
Proof.
  intros Hmethod Hstore Htoken Hparse Hfetch. split.
  - intros s e s1 Hrun.
    rewrite (handler_runs_pipeline _ _ _ _ _ _ Hmethod Hstore Htoken Hparse Hfetch).
    unfold try_catch, bind at 1. rewrite Hrun. apply handler_catch.
  - intros s orders s1 imageUrls s2 e s3 Hrun Hne Hres Hne' Hstream.
    rewrite (handler_runs_pipeline _ _ _ _ _ _ Hmethod Hstore Htoken Hparse Hfetch).
    unfold try_catch, bind at 1. rewrite Hrun.
    destruct orders as [| order rest]; [done |].
    unfold bundle, bind at 1. rewrite Hres.
    destruct imageUrls as [| u urls]; [done |].
    unfold bind at 1. rewrite Hstream. apply handler_catch.
Qed.

(** X4. When the orders are fetched, their images resolved and the
    archive streamed, the handler answers 200 with a JSON content type;
    the message reports the number of image URLs that were resolved
    (downloads that failed are counted too) and [downloadUrl] is the URL
    the blob store returned. *)
Theorem handler_reports_resolved_count fuel event penv body fetch_orders
    s orders s1 imageUrls s2 downloadUrl s3 :
  httpMethod event = "POST" ->
  opt_truthy (env_SHOPIFY_STORE_NAME penv) = true ->
  opt_truthy (env_ADMIN_API_ACCESS_TOKEN penv) = true ->
  JSON_parse E (event_body event) = inr body ->
  order_fetch fuel body (credentials_of penv) = Some fetch_orders ->
  fetch_orders s = (Ok orders, s1) ->
  orders <> [] ->
  getAllImageUrlsByQuantity orders (credentials_of penv) s1 = (Ok imageUrls, s2) ->
  imageUrls <> [] ->
  streamZipToBlobStorage imageUrls
    {| config_siteID := NETLIFY_SITE_ID penv;
       config_token := NETLIFY_API_TOKEN penv |} s2 = (Ok downloadUrl, s3) ->
  handler fuel event penv s =
    (Ok {| statusCode := 200;
           resp_headers := [("Content-Type", "application/json")];
           resp_body :=
             JSON_stringify
               [("message",
                 "Successfully bundled " +:+ pretty (length imageUrls) +:+
                 " images. Your download is ready.");
                ("downloadUrl", downloadUrl)] |},
     s3).
Proof.
  intros Hmethod Hstore Htoken Hparse Hfetch Hrun Hne Hres Hne' Hstream.
  rewrite (handler_runs_pipeline _ _ _ _ _ _ Hmethod Hstore Htoken Hparse Hfetch).
  unfold try_catch, bind at 1. rewrite Hrun.
  destruct orders as [| order rest]; [done |].
  unfold bundle, bind at 1. rewrite Hres.
  destruct imageUrls as [| u urls]; [done |].
  unfold bind at 1. rewrite Hstream. reflexivity.
Qed.

(** X5. A date that does not parse makes the date mode throw
    [Invalid time value] before it requests anything, and the handler
    answer 500 with that message. *)
Theorem invalid_date_is_rejected date creds :
  Date_parse E date = None ->
  (forall s, getOrdersByDate date creds s = (Throw "Invalid time value", s))
  /\ (forall fuel event penv s,
        httpMethod event = "POST" ->
        opt_truthy (env_SHOPIFY_STORE_NAME penv) = true ->
        opt_truthy (env_ADMIN_API_ACCESS_TOKEN penv) = true ->
        JSON_parse E (event_body event) = inr (BodyDate date) ->
        handler fuel event penv s =
          (Ok (respond 500 []
                 [("message", "An internal error occurred: Invalid time value")]),
           {| world := world s;
              log := log s ++ [EvConsoleError ["Error:"; "Invalid time value"]] |})).
Proof.
  intros Hparse.
  assert (Hthrow : forall creds0 s,
            getOrdersByDate date creds0 s = (Throw "Invalid time value", s)).
  { intros creds0 s. unfold getOrdersByDate. by rewrite Hparse. }
  split; [apply Hthrow |].
  intros fuel event penv s Hmethod Hstore Htoken Hbody.
  rewrite (handler_runs_pipeline _ _ _ _ _ _ Hmethod Hstore Htoken Hbody eq_refl).
  unfold try_catch, bind at 1. rewrite Hthrow. apply handler_catch.
Qed.

(** ** The archive streamer as a whole *)

Lemma all_chars_app P s1 s2 :
  all_chars P (s1 +:+ s2) = all_chars P s1 && all_chars P s2.
Proof.
  induction s1 as [| c s1 IH]; [reflexivity |].
  change (String c s1 +:+ s2) with (String c (s1 +:+ s2)).
  cbn [all_chars]. by rewrite IH, andb_assoc.
Qed.

Lemma pretty_N_go_digits x : forall s,
  all_chars date_char s = true -> all_chars date_char (pretty_N_go x s) = true.
Proof.
  induction (N.lt_wf_0 x) as [x _ IH]; intros s Hs.
  assert (x = 0 \/ 0 < x)%N as [-> | Hpos] by lia.
  - by rewrite pretty_N_go_0.
  - rewrite pretty_N_go_step by done. apply IH; [by apply N.div_lt |].
    cbn [all_chars]. rewrite Hs, andb_true_r.
    unfold pretty_N_char. by repeat case_match.
Qed.

Lemma pretty_N_digits (x : N) : all_chars date_char (pretty x) = true.
Proof.
  unfold pretty, pretty_N. case_decide; [reflexivity |].
  by apply pretty_N_go_digits.
Qed.

Lemma pad_digits width n : all_chars date_char (pad width n) = true.
Proof.
  unfold pad. rewrite all_chars_app, pretty_N_digits, andb_true_r.
  induction (width - _)%nat as [| k IH]; [reflexivity | exact IH].
Qed.

(** A date is written with digits, [-] and [+] only. *)
Lemma format_date_chars day : all_chars date_char (format_date day) = true.
Proof.
  unfold format_date. destruct (civil_from_days day) as [[y m] d].
  rewrite !all_chars_app, !pad_digits.
  replace (all_chars date_char "-") with true by reflexivity.
  rewrite !andb_true_r. unfold format_year.
  destruct (_ && _); [apply pad_digits |].
  destruct (y <? 0); rewrite all_chars_app, pad_digits; reflexivity.
Qed.

(** Splitting at the first separator. *)
Lemma split_on_first sep a b :
  all_chars (fun c => negb (Ascii.eqb c sep)) a = true ->
  split_on sep (a +:+ String sep b) = a :: split_on sep b.
Proof.
  induction a as [| c a IH]; intros Ha.
  - change ("" +:+ String sep b) with (String sep b). cbn [split_on].
    by rewrite Ascii.eqb_refl.
  - change (String c a +:+ String sep b) with (String c (a +:+ String sep b)).
    cbn [all_chars] in Ha. apply andb_true_iff in Ha as [Hc Ha].
    apply negb_true_iff in Hc. cbn [split_on]. by rewrite Hc, IH.
Qed.

Lemma all_chars_impl (P Q : ascii -> bool) s :
  (forall c, P c = true -> Q c = true) ->
  all_chars P s = true -> all_chars Q s = true.
Proof.
  intros HPQ. induction s as [| c s IH]; [done |]. cbn [all_chars].
  intros [Hc Hs]%andb_true_iff. by rewrite (HPQ c Hc), IH.
Qed.

(** The date part of an ISO string is the date. *)
Lemma iso_date_part day rest :
  hd "" (split_on "T" (format_date day +:+ "T" +:+ rest)) = format_date day.
Proof.
  change ("T" +:+ rest) with (String "T" rest).
  rewrite split_on_first; [reflexivity |].
  apply (all_chars_impl date_char); [| apply format_date_chars].
  intros c Hc. destruct (Ascii.eqb_spec c "T") as [-> | _]; [discriminate | reflexivity].
Qed.

Lemma appendImages_world urls : forall i archive s res s',
  appendImages urls i archive s = (res, s') ->
  world s' = download_world urls (world s).
Proof.
  induction urls as [| u rest IH]; intros i archive s res s' Hrun; simpl in Hrun.
  - by injection Hrun as _ <-.
  - destruct (appendImages_step u i archive s) as (s1 & Hstep & Hw & _).
    rewrite (bind_ok _ _ _ _ _ Hstep) in Hrun.
    apply IH in Hrun. by rewrite Hrun, Hw.
Qed.

(** The streamer up to the end of the downloads, in a world where the
    store can be opened. *)
Lemma streamZipToBlobStorage_downloads urls blobConfig s w1 now w2 id w3 :
  blobs_getStore E (images_store blobConfig) (world s) = (None, w1) ->
  date_now E w1 = (now, w2) ->
  uuidv4 E w2 = (id, w3) ->
  let key := archive_key now id in
  let outcomes := download_outcomes urls w3 in
  exists tr s4,
    world s4 = download_world urls w3
    /\ log s4 = log s ++ [EvGetStore (images_store blobConfig); EvSet key 900] ++ tr
    /\ fetches tr = zip (GET <$> urls) outcomes
    /\ Forall (fun ev => quiet ev = true) tr
    /\ streamZipToBlobStorage urls blobConfig s =
       (let* _ := emit (EvFinalize (entries_of outcomes)) in
        let* _ := await_upload (images_store blobConfig) key (entries_of outcomes) in
        store_get_url (images_store blobConfig) key) s4.
Proof.
  intros Hstore Hnow Hid key outcomes.
  set (s3 := {| world := w3;
                log := (log s ++ [EvGetStore (images_store blobConfig)]) ++
                       [EvSet key 900] |}).
  destruct (appendImages_spec urls 0 [] s3) as (s4 & Hrun & Hfetches).
  destruct (Quiet_appendImages urls _ _ _ _ _ Hrun) as (tr & Hlog & Hquiet).
  exists tr, s4. split; [by rewrite (appendImages_world _ _ _ _ _ _ Hrun) |].
  split; [rewrite Hlog; unfold s3; cbn [log]; by rewrite <- !app_assoc |].
  split.
  { rewrite Hlog, fetches_app in Hfetches. by apply app_inv_head in Hfetches. }
  split; [exact Hquiet |].
  unfold streamZipToBlobStorage. fold (images_store blobConfig).
  unfold bind at 1, getStore. rewrite Hstore.
  unfold bind at 1, new_Date. cbn [world log]. rewrite Hnow.
  unfold bind at 1, lift_result, toISOString, ret at 1.
  unfold bind at 1, new_uuid. cbn [world log]. rewrite Hid. cbv zeta.
  rewrite iso_date_part. fold (archive_key now id). fold key.
  unfold bind at 1, emit at 1. cbn [world log]. fold s3.
  unfold bind at 1. rewrite Hrun. reflexivity.
Qed.

(** The events of fetching and resolving finalize no archive. *)
Lemma archives_quiet tr :
  Forall (fun ev => quiet ev = true) tr -> archives tr = [].
Proof.
  induction 1 as [| ev tr Hev _ IH]; [reflexivity |].
  destruct ev; try discriminate; exact IH.
Qed.

(** C1. In a world where the blob store opens and takes the upload, for
    every list of URLs given to the archive streamer: each URL is
    requested once, in order, whatever the outcomes of the downloads
    before it; the run then finalizes one archive and asks for its URL,
    so that no failed download aborts it (the outcome is the one of that
    last step); and the archive it finalizes holds, in order, one entry
    for each URL whose download succeeded and none for the others, the
    entry of the URL at position [k] (from 0) being named
    [image-(k+1).jpg] whatever happened to earlier URLs. *)
Theorem archive_has_one_entry_per_download urls blobConfig s w1 now w2 id w3 w5 :
  let opts := images_store blobConfig in
  let key := archive_key now id in
  let outcomes := download_outcomes urls w3 in
  blobs_getStore E opts (world s) = (None, w1) ->
  date_now E w1 = (now, w2) ->
  uuidv4 E w2 = (id, w3) ->
  blobs_upload E opts key (entries_of outcomes) (download_world urls w3) = (None, w5) ->
  exists tr res s',
    streamZipToBlobStorage urls blobConfig s = (res, s')
    /\ log s' =
       log s ++ [EvGetStore opts; EvSet key 900] ++ tr ++
       [EvFinalize (entries_of outcomes); EvGetUrl key]
    /\ fetches tr = zip (GET <$> urls) outcomes
    /\ archives (log s') = archives (log s) ++ [entries_of outcomes]
    /\ res = match fst (blobs_get_url E opts key w5) with
             | inl e => Throw e
             | inr signedUrl => Ok signedUrl
             end
    /\ length outcomes = length urls
    /\ length (entries_of outcomes) =
       length (List.filter (fun o => bool_decide (is_Some (downloaded o))) outcomes)
    /\ (forall e, e ∈ entries_of outcomes <->
          exists k o r, outcomes !! k = Some o /\ downloaded o = Some r /\
                        e = {| name := image_name (k + 1); content := body r |}).
Proof.
  intros opts key outcomes Hstore Hnow Hid Hupload.
  destruct (streamZipToBlobStorage_downloads urls blobConfig s _ _ _ _ _
              Hstore Hnow Hid) as (tr & s4 & Hw & Hlog & Hfetches & Hquiet & Hrun).
  fold opts key outcomes in Hlog, Hfetches, Hrun.
  assert (Hrest : exists res s',
    streamZipToBlobStorage urls blobConfig s = (res, s')
    /\ log s' = log s4 ++ [EvFinalize (entries_of outcomes); EvGetUrl key]
    /\ res = match fst (blobs_get_url E opts key w5) with
             | inl e => Throw e
             | inr signedUrl => Ok signedUrl
             end).
  { rewrite Hrun. unfold bind at 1, emit. cbn [world log].
    unfold bind at 1, await_upload. cbn [world log].
    rewrite Hw, Hupload. unfold store_get_url. cbn [world log].
    destruct (blobs_get_url E opts key w5) as [[e | signedUrl] w6];
      do 2 eexists; (split; [reflexivity |]); cbn [log fst];
      rewrite <- app_assoc; split; reflexivity. }
  destruct Hrest as (res & s' & Hres & Hlog' & Hout).
  exists tr, res, s'. split; [exact Hres |].
  assert (Hall : log s' =
    log s ++ [EvGetStore opts; EvSet key 900] ++ tr ++
    [EvFinalize (entries_of outcomes); EvGetUrl key]).
  { rewrite Hlog', Hlog, <- !app_assoc. reflexivity. }
  split; [exact Hall |]. split; [exact Hfetches |].
  split.
  { rewrite Hall. unfold archives. rewrite !omap_app.
    fold (archives tr). rewrite (archives_quiet tr Hquiet). reflexivity. }
  split; [exact Hout |].
  split; [apply download_outcomes_length |].
  split; [apply (entries_length outcomes 0) |].
  intros e. apply (entries_elem outcomes 0).
Qed.

(** X6. In a world where the store can be opened, the upload succeeds
    and the store returns a URL, the streamer returns that URL, and the
    run is: the store is opened; the upload is started, under the key
    [<UTC date of now>-<uuid>.zip] and with a lifetime of 900 seconds,
    before anything is downloaded; the URLs are downloaded once each, in
    order; the archive is finalized, holding the entries of the
    downloads that succeeded; the URL of that same key is requested. *)
Theorem streamer_uploads_what_it_downloaded urls blobConfig s
    w1 now w2 id w3 w5 signedUrl w6 :
  let opts := images_store blobConfig in
  let key := format_date (Day now) +:+ "-" +:+ id +:+ ".zip" in
  let outcomes := download_outcomes urls w3 in
  blobs_getStore E opts (world s) = (None, w1) ->
  date_now E w1 = (now, w2) ->
  uuidv4 E w2 = (id, w3) ->
  blobs_upload E opts key (entries_of outcomes) (download_world urls w3) = (None, w5) ->
  blobs_get_url E opts key w5 = (inr signedUrl, w6) ->
  exists tr s',
    streamZipToBlobStorage urls blobConfig s = (Ok signedUrl, s')
    /\ world s' = w6
    /\ log s' =
       log s ++ [EvGetStore opts; EvSet key 900] ++ tr ++
       [EvFinalize (entries_of outcomes); EvGetUrl key]
    /\ fetches tr = zip (GET <$> urls) outcomes
    /\ Forall (fun ev => quiet ev = true) tr.
Proof.
  intros opts key outcomes Hstore Hnow Hid Hupload Hget.
  destruct (streamZipToBlobStorage_downloads urls blobConfig s _ _ _ _ _
              Hstore Hnow Hid) as (tr & s4 & Hw & Hlog & Hfetches & Hquiet & Hrun).
  exists tr. eexists. rewrite Hrun.
  unfold bind at 1, emit. cbn [world log].
  unfold bind at 1, await_upload. cbn [world log].
  fold opts outcomes. change (archive_key now id) with key.
  rewrite Hw, Hupload. unfold store_get_url. cbn [world log]. rewrite Hget.
  split; [reflexivity |]. split; [reflexivity |]. cbn [log].
  split; [| by split].
  rewrite Hlog, <- !app_assoc. reflexivity.
Qed.

(** X7. When the store cannot be opened the streamer throws at once:
    nothing is downloaded and no upload is started.  When the store
    opens and takes the upload but gives no URL for the archive, the
    streamer throws the error of that last request, after the downloads,
    the finalized archive and the upload. *)
Theorem streamer_failures urls blobConfig s :
  let opts := images_store blobConfig in
  (forall e w1,
     blobs_getStore E opts (world s) = (Some e, w1) ->
     streamZipToBlobStorage urls blobConfig s =
       (Throw e, {| world := w1; log := log s ++ [EvGetStore opts] |}))
  /\ (forall w1 now w2 id w3 w5 e w6,
        let key := format_date (Day now) +:+ "-" +:+ id +:+ ".zip" in
        let outcomes := download_outcomes urls w3 in
        blobs_getStore E opts (world s) = (None, w1) ->
        date_now E w1 = (now, w2) ->
        uuidv4 E w2 = (id, w3) ->
        blobs_upload E opts key (entries_of outcomes) (download_world urls w3) = (None, w5) ->
        blobs_get_url E opts key w5 = (inl e, w6) ->
        exists tr s',
          streamZipToBlobStorage urls blobConfig s = (Throw e, s')
          /\ world s' = w6
          /\ log s' =
             log s ++ [EvGetStore opts; EvSet key 900] ++ tr ++
             [EvFinalize (entries_of outcomes); EvGetUrl key]
          /\ fetches tr = zip (GET <$> urls) outcomes
          /\ Forall (fun ev => quiet ev = true) tr).
Proof.
  intros opts. split.
  - intros e w1 Hstore. unfold streamZipToBlobStorage.
    fold (images_store blobConfig). fold opts.
    unfold bind at 1, getStore. by rewrite Hstore.
  - intros w1 now w2 id w3 w5 e w6 key outcomes Hstore Hnow Hid Hupload Hget.
    destruct (streamZipToBlobStorage_downloads urls blobConfig s _ _ _ _ _
                Hstore Hnow Hid) as (tr & s4 & Hw & Hlog & Hfetches & Hquiet & Hrun).
    exists tr. eexists. rewrite Hrun.
    unfold bind at 1, emit. cbn [world log].
    unfold bind at 1, await_upload. cbn [world log].
    fold opts outcomes. change (archive_key now id) with key.
    rewrite Hw, Hupload. unfold store_get_url. cbn [world log]. rewrite Hget.
    split; [reflexivity |]. split; [reflexivity |]. cbn [log].
    split; [| by split].
    rewrite Hlog, <- !app_assoc. reflexivity.
Qed.

(** ** The [link] header *)

Lemma split_on_none sep s :
  all_chars (fun c => negb (Ascii.eqb c sep)) s = true -> split_on sep s = [s].
Proof.
  induction s as [| c s IH]; [reflexivity |]. cbn [all_chars split_on].
  intros [Hc Hs]%andb_true_iff. apply negb_true_iff in Hc. by rewrite Hc, IH.
Qed.

Lemma prefix_nil s : String.prefix "" s = true.
Proof. by destruct s. Qed.

Lemma prefix_app n r : String.prefix n (n +:+ r) = true.
Proof.
  induction n as [| c n IH]; [apply prefix_nil |].
  change (String c n +:+ r) with (String c (n +:+ r)). cbn [String.prefix].
  by destruct (ascii_dec c c).
Qed.

Lemma string_app_assoc (a b c : string) : (a +:+ b) +:+ c = a +:+ b +:+ c.
Proof.
  induction a as [| x a IH]; [reflexivity |].
  change (String x a +:+ b) with (String x (a +:+ b)).
  change (String x (a +:+ b) +:+ c) with (String x ((a +:+ b) +:+ c)).
  by rewrite IH.
Qed.

Lemma includes_right n a b : includes n b = true -> includes n (a +:+ b) = true.
Proof.
  intros Hb. induction a as [| c a IH]; [exact Hb |].
  change (String c a +:+ b) with (String c (a +:+ b)).
  cbn [includes]. by rewrite IH, orb_true_r.
Qed.

(** A needle without the character [c] does not reach across [c]. *)
Lemma prefix_stops_at c n : forall s t,
  all_chars (fun x => negb (Ascii.eqb x c)) n = true ->
  String.prefix n (s +:+ String c t) = String.prefix n s.
Proof.
  induction n as [| x n IH]; intros s t Hn.
  - by rewrite !prefix_nil.
  - cbn [all_chars] in Hn. apply andb_true_iff in Hn as [Hx Hn].
    apply negb_true_iff, Ascii.eqb_neq in Hx.
    destruct s as [| a s].
    + change ("" +:+ String c t) with (String c t). cbn [String.prefix].
      by destruct (ascii_dec x c).
    + change (String a s +:+ String c t) with (String a (s +:+ String c t)).
      cbn [String.prefix]. destruct (ascii_dec x a); [by apply IH | reflexivity].
Qed.

Lemma includes_stops_at c n s t :
  all_chars (fun x => negb (Ascii.eqb x c)) n = true ->
  includes n (s +:+ String c t) = includes n s || includes n t.
Proof.
  intros Hn. induction s as [| a s IH].
  - change ("" +:+ String c t) with (String c t). cbn [includes].
    rewrite <- (prefix_stops_at c n "" t Hn).
    change ("" +:+ String c t) with (String c t). by rewrite orb_false_r.
  - change (String a s +:+ String c t) with (String a (s +:+ String c t)).
    cbn [includes]. rewrite IH.
    change (String a (s +:+ String c t)) with (String a s +:+ String c t).
    by rewrite (prefix_stops_at c n _ t Hn), orb_assoc.
Qed.

Lemma capture_to_gt_app u rest :
  all_chars link_char u = true ->
  capture_to_gt (u +:+ String ">" rest) = Some u.
Proof.
  induction u as [| c u IH]; intros Hu; [reflexivity |].
  change (String c u +:+ String ">" rest) with (String c (u +:+ String ">" rest)).
  cbn [all_chars] in Hu. apply andb_true_iff in Hu as [Hc Hu].
  unfold link_char in Hc.
  apply andb_true_iff in Hc as [[_ Hgt]%andb_true_iff Hlt].
  apply negb_true_iff in Hgt, Hlt.
  cbn [capture_to_gt]. by rewrite Hgt, Hlt, IH.
Qed.

Lemma link_chars_no_comma u :
  all_chars link_char u = true -> all_chars no_comma u = true.
Proof.
  apply all_chars_impl. intros c. unfold link_char, no_comma.
  by intros [[? _]%andb_true_iff _]%andb_true_iff.
Qed.

(** X8. The next page is read back from the [link] headers the upstream
    API sends.  A header that is the single link [<u>; rel="next"], and
    a header that has a link to the previous page [p] before it, both
    give [u], for every [u] free of commas, of [>] and of line
    terminators (and every [p] free of commas that does not contain
    [rel="next"]).  Without a header there is no next page. *)
Theorem link_header_round_trip u :
  all_chars link_char u = true ->
  next_page_url None = inr None
  /\ next_page_url (next_link u) = inr (Some u)
  /\ (forall p,
        all_chars no_comma p = true ->
        includes rel_next p = false ->
        next_page_url (previous_and_next_link p u) = inr (Some u)).
Proof.
  intros Hu. split; [reflexivity |].
  assert (Hrel : all_chars no_comma rel_next = true) by reflexivity.
  assert (Hgt : all_chars (fun x => negb (Ascii.eqb x ">")) rel_next = true)
    by reflexivity.
  split.
  - unfold next_page_url, next_link.
    change ("<" +:+ u +:+ ">; " +:+ rel_next)
      with (String "<" (u +:+ String ">" ("; " +:+ rel_next))).
    cbn [str_truthy]. rewrite split_on_none.
    2: { cbn [all_chars]. fold no_comma. rewrite all_chars_app.
         by rewrite (link_chars_no_comma u Hu). }
    cbn [List.find].
    assert (Hinc : includes rel_next
                     (String "<" (u +:+ String ">" ("; " +:+ rel_next))) = true).
    { apply (includes_right rel_next "<"). by apply includes_right. }
    rewrite Hinc.
    cbn [match_angle]. replace (Ascii.eqb "<" "<") with true by reflexivity.
    by rewrite capture_to_gt_app.
  - intros p Hp Hnone.
    unfold next_page_url, previous_and_next_link.
    assert (Hheader :
              "<" +:+ p +:+ ">; " +:+ rel_previous +:+ ", <" +:+ u +:+ ">; " +:+ rel_next =
              ("<" +:+ p +:+ ">; " +:+ rel_previous) +:+
              String "," (" <" +:+ u +:+ ">; " +:+ rel_next)).
    { change ("<" +:+ p +:+ ">; " +:+ rel_previous)
        with (String "<" (p +:+ ">; " +:+ rel_previous)).
      change (String "<" (p +:+ ">; " +:+ rel_previous) +:+
              String "," (" <" +:+ u +:+ ">; " +:+ rel_next))
        with (String "<" ((p +:+ ">; " +:+ rel_previous) +:+
                          String "," (" <" +:+ u +:+ ">; " +:+ rel_next))).
      rewrite string_app_assoc. reflexivity. }
    rewrite Hheader at 2. clear Hheader.
    change ("<" +:+ p +:+ ">; " +:+ rel_previous +:+ ", <" +:+ u +:+ ">; " +:+ rel_next)
      with (String "<" (p +:+ ">; " +:+ rel_previous +:+ ", <" +:+ u +:+ ">; " +:+ rel_next)).
    cbn [str_truthy].
    rewrite split_on_first.
    2: { fold no_comma.
         change ("<" +:+ p +:+ ">; " +:+ rel_previous)
           with (String "<" (p +:+ ">; " +:+ rel_previous)).
         cbn [all_chars]. by rewrite all_chars_app, Hp. }
    rewrite split_on_none.
    2: { fold no_comma.
         change (" <" +:+ u +:+ ">; " +:+ rel_next)
           with (String " " (String "<" (u +:+ ">; " +:+ rel_next))).
         cbn [all_chars]. rewrite all_chars_app.
         by rewrite (link_chars_no_comma u Hu). }
    cbn [List.find].
    assert (Hprev : includes rel_next ("<" +:+ p +:+ ">; " +:+ rel_previous) = false).
    { change ("<" +:+ p +:+ ">; " +:+ rel_previous)
        with (("<" +:+ p) +:+ String ">" ("; " +:+ rel_previous)).
      rewrite (includes_stops_at ">" rel_next _ _ Hgt).
      change ("<" +:+ p) with (String "<" p). cbn [includes].
      rewrite Hnone.
      replace (String.prefix rel_next (String "<" p)) with false by reflexivity.
      reflexivity. }
    rewrite Hprev.
    change (" <" +:+ u +:+ ">; " +:+ rel_next)
      with (String " " (String "<" (u +:+ String ">" ("; " +:+ rel_next)))).
    assert (Hinc : includes rel_next
                     (String " " (String "<" (u +:+ String ">" ("; " +:+ rel_next))))
                   = true).
    { apply (includes_right rel_next " <"). by apply includes_right. }
    rewrite Hinc.
    cbn [match_angle].
    replace (Ascii.eqb " " "<") with false by reflexivity.
    replace (Ascii.eqb "<" "<") with true by reflexivity.
    by rewrite capture_to_gt_app.
Qed.

(** ** The range mode without assumptions on the order of the pages *)

Lemma filter_sublist {A} (f : A -> bool) l : List.filter f l `sublist_of` l.
Proof.
  induction l as [| x l IH]; simpl; [constructor |].
  destruct (f x); by constructor.
Qed.

Lemma concat_take_sublist {A} n (ls : list (list A)) :
  concat (take n ls) `sublist_of` concat ls.
Proof.
  rewrite <- (take_drop n ls) at 2. rewrite concat_app.
  by apply sublist_inserts_r.
Qed.

(** X9. Whatever the order in which the upstream lists the orders, the
    range mode returns the orders within [S, E] of the pages it visits:
    the pages up to and including the first page that is empty or whose
    last order is below [S] (all the pages when there is none).  The
    orders come in the order of the pages, and those of the pages it
    does not visit are left out without an error. *)
Theorem range_fetch_returns_visited_pages creds startNum endNum chain s fuel :
  head (fst <$> chain) = Some (range_first_url creds) ->
  serves creds chain (world s) ->
  (length chain < fuel)%nat ->
  let pages := (orders_of ∘ snd) <$> chain in
  let n := length (visited startNum pages) in
  exists result s',
    getOrdersByNumberRange fuel startNum endNum creds s = (Ok result, s')
    /\ result = List.filter (in_range startNum endNum) (concat (take n pages))
    /\ result `sublist_of` concat pages
    /\ fetches (log s') = fetches (log s) ++ (page_event creds <$> take n chain)
    /\ (1 <= n <= length chain)%nat.
Proof.
  intros Hhead Hserves Hfuel pages n.
  destruct (range_loop_traverses startNum creds chain fuel [] s _ Hhead Hserves Hfuel)
    as (s' & Hrun & Hlog).
  destruct (visited_prefix startNum pages) as (Htake & _ & _).
  fold pages in Hrun, Hlog. fold n in Htake, Hlog.
  eexists _, s'. split.
  { unfold getOrdersByNumberRange, bind. rewrite Hrun. reflexivity. }
  cbn [app]. rewrite Htake.
  split; [reflexivity |]. split.
  { etrans; [apply filter_sublist | apply concat_take_sublist]. }
  split; [exact Hlog |].
  split.
  - destruct chain as [| [u r] rest]; [discriminate |].
    subst n pages. cbn [fmap list_fmap visited].
    destruct (stop_page _ _); simpl; lia.
  - subst n. rewrite Htake, length_take. unfold pages. rewrite length_fmap. lia.
Qed.

(** X10. A range whose end is below its start selects nothing.  Whatever
    the upstream answers, a list the range mode returns is empty.  And
    the pages are still traversed: when the upstream serves a chain of
    pages, the range mode requests the pages up to and including the
    first page that is empty or whose last order is below [S] (all the
    pages when there is none), the first page at least, and returns the
    empty list. *)
Theorem range_fetch_of_empty_range fuel startNum endNum creds s :
  endNum < startNum ->
  (forall result s',
     getOrdersByNumberRange fuel startNum endNum creds s = (Ok result, s') ->
     result = [])
  /\ (forall chain,
        head (fst <$> chain) = Some (range_first_url creds) ->
        serves creds chain (world s) ->
        (length chain < fuel)%nat ->
        let n := length (visited startNum ((orders_of ∘ snd) <$> chain)) in
        exists s',
          getOrdersByNumberRange fuel startNum endNum creds s = (Ok [], s')
          /\ fetches (log s') = fetches (log s) ++ (page_event creds <$> take n chain)
          /\ (1 <= n <= length chain)%nat).
Proof.
  intros Hlt.
  assert (Hnone : forall l : list Order, List.filter (in_range startNum endNum) l = []).
  { intros l. apply filter_none. intros order _. unfold in_range. lia. }
  split.
  - intros result s'. unfold getOrdersByNumberRange, bind, ret.
    destruct (range_loop fuel startNum creds _ [] s) as [[allOrders | e |] s1];
      [| discriminate..].
    intros [= <- _]. apply Hnone.
  - intros chain Hhead Hserves Hfuel n.
    destruct (range_loop_traverses startNum creds chain fuel [] s _ Hhead Hserves Hfuel)
      as (s' & Hrun & Hlog).
    destruct (visited_prefix startNum ((orders_of ∘ snd) <$> chain)) as (Htake & _ & _).
    fold n in Htake, Hlog.
    exists s'. split.
    { unfold getOrdersByNumberRange, bind. rewrite Hrun. unfold ret.
      by rewrite Hnone. }
    split; [exact Hlog |].
    split.
    + destruct chain as [| [u r] rest]; [discriminate |].
      subst n. cbn [fmap list_fmap visited].
      destruct (stop_page _ _); simpl; lia.
    + subst n. rewrite Htake, length_take, length_fmap. lia.
Qed.

(** ** The cache of the resolver *)

(** An entry of the cache is never replaced. *)
Lemma cache_after_stable creds item (cache : Cache) w p v :
  cache !! p = Some v ->
  cache_after (item_step creds item cache w) !! p = Some v.
Proof.
  intros Hp. unfold item_step.
  destruct (negb _); [exact Hp |].
  destruct (cache !! product_id item) as [cached |] eqn:Hc; [exact Hp |].
  cbn [cache_after]. unfold lookup_result.
  destruct (fst _) as [e | r]; [exact Hp |].
  destruct (ok r); [| exact Hp]. destruct (json r) as [e | data]; [exact Hp |].
  destruct (product_image_src _); cbn [snd];
    rewrite lookup_insert_ne; congruence.
Qed.

(** A line item whose product is cached resolves to the cached value. *)
Lemma steps_cached creds items : forall (cache : Cache) w p v j item st,
  cache !! p = Some v ->
  items !! j = Some item ->
  product_id item = p ->
  truthy p = true ->
  steps creds items cache w !! j = Some st ->
  image_url st = v.
Proof.
  induction items as [| it rest IH]; intros cache w p v j item st Hp Hj Hid Hty Hst;
    [done |].
  destruct j as [| j]; simpl in Hj, Hst.
  - injection Hj as ->. injection Hst as <-. unfold item_step.
    by rewrite Hid, Hty, Hp.
  - apply (IH (cache_after (item_step creds it cache w))
               (world_after (item_step creds it cache w)) p v j item st);
      [by apply cache_after_stable | done..].
Qed.

(** A line item that resolved to an image leaves it in the cache. *)
Lemma resolved_is_cached creds item (cache : Cache) w :
  truthy (product_id item) = true ->
  opt_truthy (image_url (item_step creds item cache w)) = true ->
  cache_after (item_step creds item cache w) !! product_id item =
  Some (image_url (item_step creds item cache w)).
Proof.
  intros Hty. unfold item_step. rewrite Hty. cbn [negb].
  destruct (cache !! product_id item) as [cached |] eqn:Hc; [by intros _ |].
  cbn [image_url cache_after]. unfold lookup_result.
  destruct (fst (net_fetch E _ w)) as [e | r]; [discriminate |].
  destruct (ok r); [| discriminate]. destruct (json r) as [e | data]; [discriminate |].
  destruct (product_image_src _); cbn [fst snd]; [| discriminate].
  intros _. by rewrite lookup_insert_eq.
Qed.

(** A line item whose product is cached is resolved without a lookup. *)
Lemma steps_cached_no_lookup creds items : forall (cache : Cache) w p v j item st,
  cache !! p = Some v ->
  items !! j = Some item ->
  product_id item = p ->
  truthy p = true ->
  steps creds items cache w !! j = Some st ->
  lookup_made st = None.
Proof.
  induction items as [| it rest IH]; intros cache w p v j item st Hp Hj Hid Hty Hst;
    [done |].
  destruct j as [| j]; simpl in Hj, Hst.
  - injection Hj as ->. injection Hst as <-. unfold item_step.
    by rewrite Hid, Hty, Hp.
  - apply (IH (cache_after (item_step creds it cache w))
               (world_after (item_step creds it cache w)) p v j item st);
      [by apply cache_after_stable | done..].
Qed.

(** Once a line item has resolved to an image, the later line items of
    the same product take it from the cache. *)
Lemma steps_same_product creds items : forall (cache : Cache) w i j p u item_j,
  (i < j)%nat ->
  product_id <$> items !! i = Some p ->
  items !! j = Some item_j ->
  product_id item_j = p ->
  image_url <$> steps creds items cache w !! i = Some (Some u) ->
  str_truthy u = true ->
  exists st,
    steps creds items cache w !! j = Some st
    /\ image_url st = Some u
    /\ lookup_made st = None.
Proof.
  induction items as [| it rest IH]; intros cache w i j p u item_j Hij Hi Hj Hpj Hsi Hu;
    [done |].
  destruct j as [| j]; [lia |].
  change ((it :: rest) !! S j) with (rest !! j) in Hj.
  change (steps creds (it :: rest) cache w !! S j)
    with (steps creds rest (cache_after (item_step creds it cache w))
            (world_after (item_step creds it cache w)) !! j).
  destruct i as [| i]; simpl in Hi, Hsi.
  - injection Hi as Hi. injection Hsi as Hsi.
    assert (Hty : truthy (product_id it) = true).
    { destruct (truthy (product_id it)) eqn:Hty; [done |].
      unfold item_step in Hsi. by rewrite Hty in Hsi. }
    pose proof (resolved_is_cached creds it cache w Hty) as Hcached.
    rewrite Hsi in Hcached. specialize (Hcached Hu).
    destruct (lookup_lt_is_Some_2 (steps creds rest
                (cache_after (item_step creds it cache w))
                (world_after (item_step creds it cache w))) j) as [st_j Hst].
    { rewrite steps_length. by eapply lookup_lt_Some. }
    exists st_j. split; [exact Hst |]. split.
    + eapply (steps_cached creds rest _ _ (product_id it) (Some u) j item_j st_j);
        [exact Hcached | exact Hj | congruence | exact Hty | exact Hst].
    + eapply (steps_cached_no_lookup creds rest _ _ (product_id it) (Some u) j item_j st_j);
        [exact Hcached | exact Hj | congruence | exact Hty | exact Hst].
  - apply (IH _ _ i j p u item_j); [lia | exact Hi | exact Hj | exact Hpj | exact Hsi | exact Hu].
Qed.

(** X11. Within one run of the resolver, the line items of one product
    that resolve to an image all resolve to the same one.  The resolver
    returns one block of URLs per line item, in order; once the line
    item at position [i] has resolved to the non-empty URL [u], the
    block of every later line item with the same product identifier is
    its quantity in copies of [u], and the resolver makes no lookup for
    it, whatever the upstream would answer by then. *)
Theorem same_product_same_image orders creds s i j p u :
  let items := items_of orders in
  let sts := steps creds items ∅ (world s) in
  (i < j)%nat ->
  product_id <$> items !! i = Some p ->
  product_id <$> items !! j = Some p ->
  image_url <$> sts !! i = Some (Some u) ->
  str_truthy u = true ->
  exists urls s' item_j,
    getAllImageUrlsByQuantity orders creds s = (Ok urls, s')
    /\ urls = concat (zip_with contribution items sts)
    /\ fetches (log s') = fetches (log s) ++ omap lookup_made sts
    /\ items !! j = Some item_j
    /\ zip_with contribution items sts !! j =
       Some (replicate (Z.to_nat (quantity item_j)) u)
    /\ lookup_made <$> sts !! j = Some None.
Proof.
  intros items sts Hij Hi Hj Hsi Hu.
  destruct (getAllImageUrlsByQuantity_spec orders creds s) as (s' & Hrun & _ & Hlog).
  destruct (items !! j) as [item_j |] eqn:Hitem; [| discriminate].
  injection Hj as Hpj.
  destruct (steps_same_product creds items ∅ (world s) i j p u item_j
              Hij Hi Hitem Hpj Hsi Hu) as (st & Hst & Himg & Hlook).
  fold sts in Hst.
  exists (contributions creds items ∅ (world s)), s', item_j.
  split; [exact Hrun |]. split; [reflexivity |]. split; [exact Hlog |].
  split; [reflexivity |]. split.
  - rewrite lookup_zip_with, Hitem, Hst. cbn. unfold contribution.
    by rewrite Himg, Hu.
  - rewrite Hst. cbn. by rewrite Hlook.
Qed.

Lemma lookups_length creds items : forall (cache : Cache) w,
  (length (lookups creds items cache w) <= length items)%nat.
Proof.
  induction items as [| item rest IH]; intros cache w; [reflexivity |].
  destruct (truthy (product_id item)) eqn:Hid.
  2: { rewrite lookups_skip by done. specialize (IH cache w). simpl. lia. }
  destruct (cache !! product_id item) as [cached |] eqn:Hc.
  - rewrite (lookups_hit _ _ _ _ _ cached) by done.
    specialize (IH cache w). simpl. lia.
  - rewrite lookups_miss by done. cbv zeta. simpl.
    apply le_n_S, IH.
Qed.

(** X12. When every product lookup of a run is answered by a success
    response that decodes, no product is looked up twice: the requests
    of the run are pairwise distinct, and there are at most as many as
    there are line items. *)
Theorem answered_lookups_are_distinct orders creds s :
  Forall id_typed (items_of orders) ->
  let tr := lookups creds (items_of orders) ∅ (world s) in
  Forall (fun p => cacheable (snd p) = true) tr ->
  exists urls s',
    getAllImageUrlsByQuantity orders creds s = (Ok urls, s')
    /\ fetches (log s') = fetches (log s) ++ tr
    /\ NoDup (fst <$> tr)
    /\ (length tr <= length (items_of orders))%nat.
Proof.
  intros Hty tr Hall.
  destruct (getAllImageUrlsByQuantity_spec orders creds s) as (s' & Hrun & _ & Hlog).
  eexists _, s'. split; [exact Hrun |]. split; [exact Hlog |].
  split; [| apply lookups_length].
  apply NoDup_alt. intros i j req Hi Hj.
  rewrite list_lookup_fmap in Hi, Hj.
  destruct (tr !! i) as [[req_i o_i] |] eqn:Hti; [| discriminate].
  destruct (tr !! j) as [[req_j o_j] |] eqn:Htj; [| discriminate].
  simpl in Hi, Hj. injection Hi as ->. injection Hj as ->.
  assert (Hci : cacheable o_i = true).
  { rewrite Forall_forall in Hall.
    apply (Hall (req, o_i)). by eapply list_elem_of_lookup_2. }
  assert (Hcj : cacheable o_j = true).
  { rewrite Forall_forall in Hall.
    apply (Hall (req, o_j)). by eapply list_elem_of_lookup_2. }
  destruct (Nat.lt_trichotomy i j) as [Hlt | [Heq | Hgt]]; [| exact Heq |].
  - pose proof (lookups_once creds _ _ _ _ _ _ _ _ Hty Hlt Hti Htj). congruence.
  - pose proof (lookups_once creds _ _ _ _ _ _ _ _ Hty Hgt Htj Hti). congruence.
Qed.



(** ** The names of the archive entries *)

Lemma image_name_inj a b : image_name a = image_name b -> a = b.
Proof.
  unfold image_name. intros H. apply String.app_inj in H.
  apply string_app_inj_r in H. by apply pretty_nat_inj in H.
Qed.

Lemma entry_names_distinct (l : list Outcome) : forall i,
  NoDup (name <$> concat (imap (fun k => entry_at (i + k)) l)).
Proof.
  induction l as [| o l IH]; intros i; [constructor |].
  rewrite imap_cons, entry_at_shift, concat_cons, fmap_app.
  apply NoDup_app. split; [| split; [| apply IH]].
  - unfold entry_at. destruct (downloaded o); simpl; repeat constructor.
    by inversion 1.
  - intros x Hx Hrest. unfold entry_at in Hx.
    destruct (downloaded o) as [r |]; [| by inversion Hx].
    apply list_elem_of_singleton in Hx. subst x.
    apply list_elem_of_fmap in Hrest as (e & Hname & He).
    apply entries_elem in He as (k & o' & r' & _ & _ & ->).
    cbn [name] in Hname. apply image_name_inj in Hname. lia.
Qed.

(** X14. The entries of the archive have pairwise distinct names, and
    there are at most as many as there are URLs. *)
Theorem archive_names_are_distinct urls s :
  exists archive s',
    appendImages urls 0 [] s = (Ok archive, s')
    /\ NoDup (name <$> archive)
    /\ (length archive <= length urls)%nat.
Proof.
  destruct (appendImages_spec urls 0 [] s) as (s' & Hrun & _).
  eexists _, s'. split; [exact Hrun |]. cbn [app]. split.
  - apply (entry_names_distinct _ 0).
  - rewrite (entries_length _ 0), <- (download_outcomes_length urls (world s)).
    apply List.filter_length_le.
Qed.

(** ** The window of the date mode *)

(** X15. The two bounds the date mode computes for a valid instant are
    the first and the last millisecond of the UTC day of that instant:
    the lower bound is a multiple of a day, the upper bound is 86399999
    ms later, and the instant lies between them. *)
Theorem date_window_is_the_utc_day t :
  - maxTime <= t < maxTime ->
  exists lower upper,
    setUTCHours (Some t) 0 0 0 0 = Some lower
    /\ setUTCHours (Some t) 23 59 59 999 = Some upper
    /\ lower mod msPerDay = 0
    /\ upper = lower + 86399999
    /\ lower <= t <= upper.
Proof.
  intros Ht. exists (Day t * msPerDay), (Day t * msPerDay + 86399999).
  unfold setUTCHours.
  replace (MakeTime 0 0 0 0) with 0 by reflexivity.
  replace (MakeTime 23 59 59 999) with 86399999 by reflexivity.
  rewrite (day_is_representable t 0), (day_is_representable t 86399999)
    by (done || (unfold msPerDay; lia)).
  rewrite Z.add_0_r.
  split; [reflexivity |]. split; [reflexivity |].
  split; [apply Z.mod_mul; by unfold msPerDay |].
  split; [reflexivity |].
  unfold Day, msPerDay.
  pose proof (Z.div_mod t 86400000 ltac:(lia)).
  pose proof (Z.mod_pos_bound t 86400000 ltac:(lia)). lia.
Qed.

(** ** What a traversal fetched *)

Lemma orders_received_cons req r (tr : list Event) :
  orders_received (EvFetch req (Resolved r) :: tr) = orders_of r ++ orders_received tr.
Proof. reflexivity. Qed.

Lemma range_loop_returns_received fuel startNum creds :
  forall nextUrl acc s allOrders s',
    range_loop fuel startNum creds nextUrl acc s = (Ok allOrders, s') ->
    exists tr,
      log s' = log s ++ tr
      /\ Forall page_received tr
      /\ allOrders = acc ++ orders_received tr.
Proof.
  induction fuel as [| fuel IH]; intros nextUrl acc s allOrders s' Hrun; [discriminate |].
  destruct (opt_truthy nextUrl) eqn:Hu.
  2: { rewrite range_loop_done in Hrun by done. injection Hrun as <- <-.
       exists []. by rewrite !app_nil_r. }
  destruct nextUrl as [u |]; [| discriminate]. simpl in Hu.
  rewrite range_loop_unfold in Hrun by done. cbv zeta in Hrun.
  destruct (net_fetch E (page_request creds u) (world s)) as [[e | r] w];
    cbn [fst snd] in Hrun; [discriminate |].
  destruct (ok r) eqn:Hok; [| discriminate].
  destruct (json r) as [e | data] eqn:Hjson; [discriminate |].
  assert (Hpage : default [] (orders data) = orders_of r)
    by (unfold orders_of; by rewrite Hjson).
  rewrite Hpage in Hrun.
  assert (Hrecv : page_received (EvFetch (page_request creds u) (Resolved r))).
  { exists (page_request creds u), r, data. by repeat split. }
  destruct (stop_page startNum (orders_of r)).
  { injection Hrun as <- <-. eexists. split; [reflexivity |].
    split; [by repeat constructor |].
    by rewrite orders_received_cons, app_nil_r. }
  destruct (next_page_url (link r)) as [e | nextUrl]; [discriminate |].
  apply IH in Hrun as (tr & Hlog & Hall & ->). cbn [log] in Hlog.
  exists (EvFetch (page_request creds u) (Resolved r) :: tr).
  split; [by rewrite Hlog, <- app_assoc |].
  split; [by constructor |].
  by rewrite orders_received_cons, app_assoc.
Qed.

(** X17. The range mode swallows no failure.  Whatever the upstream
    does, when the range mode returns a list, every request of the run
    was answered by a success response that decoded, and the list is
    made of the orders within [S, E] of all the pages received, in the
    order in which they were received. *)
Theorem range_fetch_returns_what_it_received fuel startNum endNum creds s result s' :
  getOrdersByNumberRange fuel startNum endNum creds s = (Ok result, s') ->
  exists tr,
    log s' = log s ++ tr
    /\ Forall page_received tr
    /\ result = List.filter (in_range startNum endNum) (orders_received tr).
Proof.
  unfold getOrdersByNumberRange, bind, ret.
  destruct (range_loop fuel startNum creds _ [] s) as [[allOrders | e |] s1] eqn:Hloop;
    intros Hrun; inversion Hrun; subst.
  apply range_loop_returns_received in Hloop as (tr & Hlog & Hall & ->).
  exists tr. by repeat split.
Qed.

End Pipeline.

(* ===================================================================== *)
(** * The properties in the scripted world *)
(* ===================================================================== *)

(** Order A has one line item, product 11, quantity 2, whose image is
    [u1]; order B has one line item, product 12, quantity 1, without
    image.  Both downloads of [u1] succeed: the archive has the two
    entries [image-1.jpg] and [image-2.jpg], and the response carries the
    download URL and a message that reports 2 images. *)
Example end_to_end_scenario :
  let run := handler scripted 4 date_event shop_env
               (start scripted
                  [Resolved (orders_page two_orders None);
                   Resolved (product_page (Some image_u1));
                   Resolved (product_page None);
                   Resolved (image_file "JFIF-1"); Resolved (image_file "JFIF-1")]) in
  fst run =
    Ok {| statusCode := 200;
          resp_headers := [("Content-Type", "application/json")];
          resp_body :=
            JSON_stringify
              [("message", "Successfully bundled 2 images. Your download is ready.");
               ("downloadUrl",
                "https://blobs.example/2024-05-01-6f1c2d9e-3b7a-4c58-9e21-0a4d5b6c7d8e.zip")] |}
  /\ archives (log scripted (snd run)) =
     [[{| name := "image-1.jpg"; content := "JFIF-1" |};
       {| name := "image-2.jpg"; content := "JFIF-1" |}]].
Proof. vm_compute. split; reflexivity. Qed.

Ltac serve_pages :=
  repeat first
    [ reflexivity
    | match goal with
      | |- _ /\ _ => split
      | |- exists _, _ => eexists
      end ].

Lemma five_orders_served :
  serves scripted shop five_orders (serving five_orders).
Proof. cbn [serves five_orders serving]. serve_pages. Defined.

Lemma five_orders_descending :
  StronglySorted Z.ge (order_number <$> concat ((orders_of ∘ snd) <$> five_orders)).
Proof. vm_compute. repeat constructor; discriminate. Defined.

Lemma five_orders_no_gap :
  forall i page,
    ((orders_of ∘ snd) <$> five_orders) !! i = Some page ->
    (S i < length ((orders_of ∘ snd) <$> five_orders))%nat -> page <> [].
Proof.
  intros [| [| [| i]]] page Hi Hlen; simpl in Hi, Hlen;
    try lia; injection Hi as <-; discriminate.
Defined.

(** The early exit of the range [100, 120] over the orders 200, 150,
    110, 90, 50: two pages are requested and the result is order 110. *)
Lemma range_fetch_complete_witness :
  exists s',
    getOrdersByNumberRange scripted 4 100 120 shop
      (start scripted (serving five_orders)) = (Ok [numbered 110], s')
    /\ fetches (log scripted s') = page_event shop <$> take 2 five_orders.
Proof.
  destruct (range_fetch_complete scripted shop 100 120 five_orders
              (start scripted (serving five_orders)) 4
              eq_refl five_orders_served ltac:(simpl; lia)
              five_orders_descending five_orders_no_gap)
    as (s' & Hrun & Hlog & _).
  exists s'. split; [exact Hrun | exact Hlog].
Defined.

(** C2, as stated, fails: the pages list the open orders 110 and 105 in
    descending order, both within [100, 120], yet the traversal stops at
    the empty page between them and the fetch returns order 110 only. *)
Lemma range_fetch_misses_orders_after_empty_page :
  let pages := (orders_of ∘ snd) <$> gapped_orders in
  let run := getOrdersByNumberRange scripted 4 100 120 shop
               (start scripted (serving gapped_orders)) in
  serves scripted shop gapped_orders (serving gapped_orders)
  /\ StronglySorted Z.ge (order_number <$> concat pages)
  /\ fst run = Ok [numbered 110]
  /\ numbered 105 ∈ concat pages
  /\ in_range 100 120 (numbered 105) = true
  /\ ~ (forall order, order ∈ concat pages -> in_range 100 120 order = true ->
          exists result, fst run = Ok result /\ order ∈ result).
Proof.
  intros pages run.
  assert (Hrun : fst run = Ok [numbered 110]) by (vm_compute; reflexivity).
  assert (Hin : numbered 105 ∈ concat pages).
  { vm_compute. apply list_elem_of_further, list_elem_of_here. }
  split; [cbn [serves gapped_orders serving]; serve_pages |].
  split; [vm_compute; repeat constructor; discriminate |].
  split; [exact Hrun |]. split; [exact Hin |]. split; [reflexivity |].
  intros Hall. destruct (Hall (numbered 105) Hin eq_refl) as (result & Hres & Hmem).
  rewrite Hrun in Hres. injection Hres as <-.
  apply list_elem_of_singleton in Hmem. discriminate.
Qed.

Lemma range_fetch_within_range_witness :
  Forall (fun order => 100 <= order_number order <= 120) [numbered 110].
Proof.
  apply (range_fetch_within_range scripted 4 100 120 shop
           (start scripted (serving five_orders)) [numbered 110]
           (snd (getOrdersByNumberRange scripted 4 100 120 shop
                   (start scripted (serving five_orders))))).
  apply run_result. vm_compute. reflexivity.
Defined.

(** C4, as stated, fails: two line items reference product 7 and the
    first lookup is answered by a non-success response; the resolver
    looks the product up a second time. *)
Lemma failed_lookup_is_repeated :
  let orders := [{| order_number := 1005; line_items := [line 7 1; line 7 1] |}] in
  let run := getAllImageUrlsByQuantity scripted orders shop
               (start scripted [Resolved throttled; Resolved throttled]) in
  fetches (log scripted (snd run)) =
    [(product_request shop (JsNum 7), Resolved throttled);
     (product_request shop (JsNum 7), Resolved throttled)]
  /\ ~ (length (List.filter
                  (fun p => String.eqb (url (fst p))
                                       (url (product_request shop (JsNum 7))))
                  (fetches (log scripted (snd run)))) <= 1)%nat.
Proof.
  intros orders run.
  assert (Hlog : fetches (log scripted (snd run)) =
                 [(product_request shop (JsNum 7), Resolved throttled);
                  (product_request shop (JsNum 7), Resolved throttled)])
    by (vm_compute; reflexivity).
  split; [exact Hlog |]. rewrite Hlog. vm_compute. lia.
Qed.

(** Three line items of product 7: the first lookup is throttled, the
    second is answered, and there is no third. *)
Lemma product_looked_up_once_after_answer_witness :
  let run := getAllImageUrlsByQuantity scripted same_product shop
               (start scripted
                  [Resolved throttled; Resolved (product_page (Some image_u1))]) in
  Forall id_typed (items_of same_product)
  /\ fetches (log scripted (snd run)) =
     [(product_request shop (JsNum 7), Resolved throttled);
      (product_request shop (JsNum 7), Resolved (product_page (Some image_u1)))]
  /\ fst run = Ok [image_u1; image_u1; image_u1].
Proof.
  intros run.
  assert (Hty : Forall id_typed (items_of same_product))
    by (repeat constructor).
  destruct (product_looked_up_once_after_answer scripted same_product shop
              (start scripted
                 [Resolved throttled; Resolved (product_page (Some image_u1))]) Hty)
    as (urls & s' & Hrun & Hlog & _ & _).
  split; [exact Hty |].
  unfold run at 1. rewrite Hrun. cbn [snd].
  split; [rewrite Hlog; vm_compute; reflexivity |].
  vm_compute. reflexivity.
Defined.

(** Order A has product 11 twice, which resolves to [u1]; order B has
    product 12 once, which has no image: the result is [u1; u1]. *)
Lemma resolution_expands_by_quantity_witness :
  Forall quantity_typed (items_of two_orders)
  /\ fst (getAllImageUrlsByQuantity scripted two_orders shop
            (start scripted
               [Resolved (product_page (Some image_u1)); Resolved (product_page None)]))
     = Ok [image_u1; image_u1].
Proof.
  assert (Hq : Forall quantity_typed (items_of two_orders))
    by (repeat constructor; vm_compute; discriminate).
  split; [exact Hq |].
  destruct (resolution_expands_by_quantity scripted two_orders shop
              (start scripted
                 [Resolved (product_page (Some image_u1)); Resolved (product_page None)])
              Hq)
    as (urls & s' & Hrun & Hurls & _).
  rewrite Hrun, Hurls. vm_compute. reflexivity.
Defined.

(** The second page of a range fetch is throttled, and so is the page of
    a date fetch. *)
Lemma non_success_page_aborts_fetch_witness :
  fst (getOrdersByNumberRange scripted 4 100 120 shop
         (start scripted
            [Resolved (orders_page [numbered 200] (next_link (page_url "p2")));
             Resolved throttled]))
  = Throw "Shopify API error: Too Many Requests. Details: Exceeded 2 calls per second"
  /\ fst (getOrdersByDate scripted "2024-05-01" shop
            (start scripted [Resolved throttled]))
     = Throw "Shopify API error: Too Many Requests".
Proof.
  destruct (non_success_page_aborts_fetch scripted shop) as [Hdate Hrange].
  split.
  - set (s := start scripted _).
    destruct (Hrange 4%nat 100 120 s _ _ eq_refl) as (tr & Hlog & Htr).
    vm_compute in Hlog.
    destruct (Htr [EvFetch (page_request shop first_page_url)
                     (Resolved (orders_page [numbered 200] (next_link (page_url "p2"))))]
                  (page_request shop (page_url "p2")) throttled []) as [_ Hres].
    + rewrite <- Hlog. vm_compute. reflexivity.
    + reflexivity.
    + exact Hres.
  - destruct (Hdate "2024-05-01" (start scripted [Resolved throttled])
                1714521600000 throttled) as (s' & Hrun & _).
    + reflexivity.
    + unfold maxTime. lia.
    + reflexivity.
    + reflexivity.
    + rewrite Hrun. reflexivity.
Defined.

(** The request of the date fetch for 1 May 2024. *)
Lemma date_fetch_is_one_request_witness :
  let run := getOrdersByDate scripted "2024-05-01" shop
               (start scripted [Resolved (orders_page [numbered 7] None)]) in
  log scripted (snd run) =
    [EvFetch
       {| url := "https://demo-shop.myshopify.com/admin/api/2024-04/orders.json?status=open&created_at_min=2024-05-01T00%3A00%3A00.000Z&created_at_max=2024-05-01T23%3A59%3A59.999Z&limit=250";
          headers := [("X-Shopify-Access-Token", "shpat_0123")] |}
       (Resolved (orders_page [numbered 7] None))]
  /\ fst run = Ok [numbered 7].
Proof.
  intros run.
  destruct (date_fetch_is_one_request scripted "2024-05-01" shop
              (start scripted [Resolved (orders_page [numbered 7] None)])
              1714521600000 eq_refl ltac:(unfold maxTime; lia))
    as (s' & Hlog & _ & Hres & Hstate & _).
  unfold run. rewrite Hstate, Hres, Hlog. vm_compute. split; reflexivity.
Defined.

(** A date with no open order, and a date whose only order has a product
    without image. *)
Lemma empty_result_makes_no_archive_witness :
  handler scripted 4 date_event shop_env
    (start scripted [Resolved (orders_page [] None)])
  = (Ok {| statusCode := 200;
           resp_headers := [];
           resp_body :=
             JSON_stringify
               [("message", "No unfulfilled orders found for the selected criteria.")] |},
     snd (getOrdersByDate scripted "2024-05-01" (credentials_of shop_env)
            (start scripted [Resolved (orders_page [] None)])))
  /\ fst (handler scripted 4 date_event shop_env
            (start scripted
               [Resolved (orders_page two_orders None);
                Resolved (product_page None); Resolved (product_page None)]))
     = Ok {| statusCode := 200;
             resp_headers := [];
             resp_body :=
               JSON_stringify
                 [("message", "No product images found in these unfulfilled orders.")] |}.
Proof.
  destruct (empty_result_makes_no_archive scripted 4 date_event shop_env
              (BodyDate "2024-05-01")
              (getOrdersByDate scripted "2024-05-01" (credentials_of shop_env))
              eq_refl eq_refl eq_refl eq_refl eq_refl) as [Hnone Himages].
  split.
  - apply Hnone. apply run_result. vm_compute. reflexivity.
  - set (s := start scripted _).
    destruct (Himages s two_orders
                (snd (getOrdersByDate scripted "2024-05-01" (credentials_of shop_env) s))
                (snd (getAllImageUrlsByQuantity scripted two_orders
                        (credentials_of shop_env)
                        (snd (getOrdersByDate scripted "2024-05-01"
                                (credentials_of shop_env) s)))))
      as [Hrun _].
    + apply run_result. vm_compute. reflexivity.
    + discriminate.
    + apply run_result. vm_compute. reflexivity.
    + rewrite Hrun. reflexivity.
Defined.

(** Of three products the second cannot be looked up: the result holds
    the image of the first and, twice, the image of the third. *)
Lemma failed_lookup_loses_only_its_item_witness :
  fst (getAllImageUrlsByQuantity scripted three_products shop
         (start scripted
            [Resolved (product_page (Some image_u1)); Rejected "socket hang up";
             Resolved (product_page (Some image_u3))]))
  = Ok [image_u1; image_u3; image_u3].
Proof.
  destruct (failed_lookup_loses_only_its_item scripted shop) as [_ Hfail].
  destruct (Hfail three_products
              (start scripted
                 [Resolved (product_page (Some image_u1)); Rejected "socket hang up";
                  Resolved (product_page (Some image_u3))])
              [line 11 1] (line 12 1) [line 13 2]) as (s' & Hrun).
  - reflexivity.
  - reflexivity.
  - vm_compute. reflexivity.
  - vm_compute. reflexivity.
  - rewrite Hrun. vm_compute. reflexivity.
Defined.

(** A line item whose product identifier is the number 0. *)
Lemma falsy_product_id_is_skipped_witness :
  truthy (JsNum 0) = false
  /\ resolveItem scripted shop {| product_id := JsNum 0; quantity := 5 |}
       ([image_u1], ∅) (start scripted [Resolved (product_page (Some image_u3))])
     = (Ok ([image_u1], ∅), start scripted [Resolved (product_page (Some image_u3))]).
Proof.
  split; [reflexivity |].
  apply (falsy_product_id_is_skipped scripted shop
           {| product_id := JsNum 0; quantity := 5 |} eq_refl).
Defined.

(** A GET request, and a POST whose body is not JSON. *)
Lemma handler_rejects_before_any_request_witness :
  handler scripted 4 {| httpMethod := "GET"; event_body := date_body |} shop_env
    (start scripted [Resolved throttled])
  = (Ok (respond 405 [] [("message", "Method Not Allowed")]),
     start scripted [Resolved throttled])
  /\ fst (handler scripted 4 {| httpMethod := "POST"; event_body := "type=date" |}
            shop_env (start scripted [Resolved throttled]))
     = Ok (respond 500 []
             [("message", "An internal error occurred: Unexpected token in JSON")]).
Proof.
  split.
  - apply (handler_rejects_before_any_request scripted 4
             {| httpMethod := "GET"; event_body := date_body |} shop_env
             (start scripted [Resolved throttled])).
    discriminate.
  - destruct (handler_rejects_before_any_request scripted 4
                {| httpMethod := "POST"; event_body := "type=date" |} shop_env
                (start scripted [Resolved throttled])) as (_ & _ & Hbody).
    destruct (Hbody eq_refl eq_refl eq_refl) as [_ Hparse].
    rewrite (Hparse "Unexpected token in JSON" eq_refl). reflexivity.
Defined.

(** The page of a date request is throttled. *)
Lemma handler_reports_pipeline_failure_witness :
  fst (handler scripted 4 date_event shop_env (start scripted [Resolved throttled]))
  = Ok (respond 500 []
          [("message",
            "An internal error occurred: Shopify API error: Too Many Requests")]).
Proof.
  destruct (handler_reports_pipeline_failure scripted 4 date_event shop_env
              (BodyDate "2024-05-01")
              (getOrdersByDate scripted "2024-05-01" (credentials_of shop_env))
              eq_refl eq_refl eq_refl eq_refl eq_refl) as [Hfetch _].
  rewrite (Hfetch (start scripted [Resolved throttled])
             "Shopify API error: Too Many Requests"
             (snd (getOrdersByDate scripted "2024-05-01" (credentials_of shop_env)
                     (start scripted [Resolved throttled])))).
  - reflexivity.
  - apply run_result. vm_compute. reflexivity.
Defined.

(** Two image URLs are resolved and the second download fails: the
    message reports 2 images. *)
Lemma handler_reports_resolved_count_witness :
  let run := handler scripted 4 date_event shop_env
               (start scripted one_failed_download) in
  fst run =
    Ok {| statusCode := 200;
          resp_headers := [("Content-Type", "application/json")];
          resp_body :=
            JSON_stringify
              [("message", "Successfully bundled 2 images. Your download is ready.");
               ("downloadUrl",
                "https://blobs.example/2024-05-01-6f1c2d9e-3b7a-4c58-9e21-0a4d5b6c7d8e.zip")] |}
  /\ archives (log scripted (snd run)) =
     [[{| name := "image-1.jpg"; content := "JFIF-1" |}]].
Proof.
  intros run.
  set (s := start scripted one_failed_download).
  set (creds := credentials_of shop_env).
  set (s1 := snd (getOrdersByDate scripted "2024-05-01" creds s)).
  set (s2 := snd (getAllImageUrlsByQuantity scripted two_orders creds s1)).
  set (s3 := snd (streamZipToBlobStorage scripted [image_u1; image_u1] blob_config s2)).
  assert (Hrun : run =
    (Ok {| statusCode := 200;
           resp_headers := [("Content-Type", "application/json")];
           resp_body :=
             JSON_stringify
               [("message",
                 "Successfully bundled " +:+ pretty (length [image_u1; image_u1]) +:+
                 " images. Your download is ready.");
                ("downloadUrl",
                 "https://blobs.example/2024-05-01-6f1c2d9e-3b7a-4c58-9e21-0a4d5b6c7d8e.zip")] |},
     s3)).
  { apply (handler_reports_resolved_count scripted 4 date_event shop_env
             (BodyDate "2024-05-01") (getOrdersByDate scripted "2024-05-01" creds)
             s two_orders s1 [image_u1; image_u1] s2 _ s3
             eq_refl eq_refl eq_refl eq_refl eq_refl).
    - apply run_result. vm_compute. reflexivity.
    - discriminate.
    - apply run_result. vm_compute. reflexivity.
    - discriminate.
    - apply run_result. vm_compute. reflexivity. }
  rewrite Hrun. cbn [fst snd]. split; [reflexivity |].
  vm_compute. reflexivity.
Defined.

(** A date that the scripted world does not understand. *)
Lemma invalid_date_is_rejected_witness :
  getOrdersByDate scripted "yesterday" shop (start scripted [Resolved throttled])
  = (Throw "Invalid time value", start scripted [Resolved throttled]).
Proof.
  apply (invalid_date_is_rejected scripted "yesterday" shop). reflexivity.
Defined.

(** The second of three downloads fails: the run goes on, and the
    archive it finalizes holds [image-1.jpg] and [image-3.jpg]. *)
Lemma archive_has_one_entry_per_download_witness :
  let run := streamZipToBlobStorage scripted gallery blob_config
               (start scripted gallery_answers) in
  archives (log scripted (snd run)) =
    [[{| name := "image-1.jpg"; content := "AAA" |};
      {| name := "image-3.jpg"; content := "CCC" |}]]
  /\ fst <$> fetches (log scripted (snd run)) = GET <$> gallery
  /\ fst run =
     Ok "https://blobs.example/2024-05-01-6f1c2d9e-3b7a-4c58-9e21-0a4d5b6c7d8e.zip".
Proof.
  intros run.
  destruct (archive_has_one_entry_per_download scripted gallery blob_config
              (start scripted gallery_answers)
              gallery_answers 1714564800000 gallery_answers
              "6f1c2d9e-3b7a-4c58-9e21-0a4d5b6c7d8e" gallery_answers [])
    as (tr & res & s' & Hrun & Hlog & Hfetches & Harchives & Hres & _).
  - reflexivity.
  - reflexivity.
  - reflexivity.
  - vm_compute. reflexivity.
  - unfold run. rewrite Hrun. cbn [fst snd].
    split; [rewrite Harchives; vm_compute; reflexivity |].
    split; [| rewrite Hres; vm_compute; reflexivity].
    unfold fetches. rewrite Hlog, !omap_app. fold (fetches tr).
    rewrite Hfetches. vm_compute. reflexivity.
Defined.

(** The three downloads of the gallery, streamed to the store. *)
Lemma streamer_uploads_what_it_downloaded_witness :
  let run := streamZipToBlobStorage scripted gallery blob_config
               (start scripted gallery_answers) in
  fst run =
    Ok "https://blobs.example/2024-05-01-6f1c2d9e-3b7a-4c58-9e21-0a4d5b6c7d8e.zip"
  /\ archives (log scripted (snd run)) =
     [[{| name := "image-1.jpg"; content := "AAA" |};
       {| name := "image-3.jpg"; content := "CCC" |}]].
Proof.
  intros run.
  destruct (streamer_uploads_what_it_downloaded scripted gallery blob_config
              (start scripted gallery_answers)
              gallery_answers 1714564800000 gallery_answers
              "6f1c2d9e-3b7a-4c58-9e21-0a4d5b6c7d8e" gallery_answers []
              "https://blobs.example/2024-05-01-6f1c2d9e-3b7a-4c58-9e21-0a4d5b6c7d8e.zip"
              [])
    as (tr & s' & Hrun & _ & Hlog & _ & Hquiet).
  - reflexivity.
  - reflexivity.
  - reflexivity.
  - vm_compute. reflexivity.
  - vm_compute. reflexivity.
  - unfold run. rewrite Hrun. cbn [fst snd]. split; [reflexivity |].
    rewrite Hlog. unfold archives. rewrite !omap_app.
    replace (omap _ tr) with (@nil (list ArchiveEntry)).
    + vm_compute. reflexivity.
    + symmetry. clear -Hquiet. induction Hquiet as [| ev tr Hev _ IH]; [reflexivity |].
      cbn [omap list_omap]. destruct ev; try discriminate; exact IH.
Defined.

(** A store that is not configured, and a store that gives no URL. *)
Lemma streamer_failures_witness :
  streamZipToBlobStorage unconfigured gallery blob_config
    (start unconfigured gallery_answers)
  = (Throw "The environment has not been configured to use Netlify Blobs",
     Build_State unconfigured gallery_answers
       [EvGetStore (images_store blob_config)])
  /\ fst (streamZipToBlobStorage without_url gallery blob_config
            (start without_url gallery_answers))
     = Throw "403 Forbidden".
Proof.
  split.
  - apply (streamer_failures unconfigured gallery blob_config
             (start unconfigured gallery_answers)). reflexivity.
  - destruct (streamer_failures without_url gallery blob_config
                (start without_url gallery_answers)) as [_ Hget].
    destruct (Hget gallery_answers 1714564800000 gallery_answers
                "6f1c2d9e-3b7a-4c58-9e21-0a4d5b6c7d8e" gallery_answers []
                "403 Forbidden" [])
      as (tr & s' & Hrun & _);
      [reflexivity.. | vm_compute; reflexivity | vm_compute; reflexivity |].
    rewrite Hrun. reflexivity.
Defined.

(** The link to the second page. *)
Lemma link_header_round_trip_witness :
  next_page_url (next_link (page_url "p2")) = inr (Some (page_url "p2"))
  /\ next_page_url (previous_and_next_link (page_url "p1") (page_url "p3"))
     = inr (Some (page_url "p3")).
Proof.
  split.
  - apply (link_header_round_trip (page_url "p2")). vm_compute. reflexivity.
  - apply (link_header_round_trip (page_url "p3")); vm_compute; reflexivity.
Defined.

Lemma ascending_orders_served :
  serves scripted shop ascending_orders (serving ascending_orders).
Proof. cbn [serves ascending_orders serving]. serve_pages. Defined.

(** The upstream lists the orders in ascending order: the traversal of
    the range [100, 120] stops after the first page, whose last order is
    90, and returns nothing, though order 110 is on the next page. *)
Lemma range_fetch_returns_visited_pages_witness :
  exists s',
    getOrdersByNumberRange scripted 4 100 120 shop
      (start scripted (serving ascending_orders)) = (Ok [], s')
    /\ fetches (log scripted s') = page_event shop <$> take 1 ascending_orders.
Proof.
  destruct (range_fetch_returns_visited_pages scripted shop 100 120 ascending_orders
              (start scripted (serving ascending_orders)) 4
              eq_refl ascending_orders_served ltac:(simpl; lia))
    as (result & s' & Hrun & Hresult & _ & Hlog & _).
  exists s'. rewrite Hrun, Hresult. split; [reflexivity | exact Hlog].
Defined.

(** The range from 120 down to 100 over the five orders: the first two
    pages are requested, the second ending with order 90, and nothing is
    returned. *)
Lemma range_fetch_of_empty_range_witness :
  exists s',
    getOrdersByNumberRange scripted 4 120 100 shop
      (start scripted (serving five_orders)) = (Ok [], s')
    /\ fetches (log scripted s') = page_event shop <$> take 2 five_orders.
Proof.
  destruct (range_fetch_of_empty_range scripted 4 120 100 shop
              (start scripted (serving five_orders)) ltac:(lia)) as [_ Htraverses].
  destruct (Htraverses five_orders eq_refl five_orders_served ltac:(simpl; lia))
    as (s' & Hrun & Hlog & _).
  exists s'. split; [exact Hrun | exact Hlog].
Defined.

(** Three line items of product 7, in quantities 1, 2 and 1: the lookup
    of the first is throttled, the second resolves to [u1] by a second
    lookup, and the third takes [u1] without a lookup. *)
Lemma same_product_same_image_witness :
  let run := getAllImageUrlsByQuantity scripted same_product shop
               (start scripted
                  [Resolved throttled; Resolved (product_page (Some image_u1))]) in
  fst run = Ok [image_u1; image_u1; image_u1]
  /\ length (fetches (log scripted (snd run))) = 2%nat.
Proof.
  intros run.
  destruct (same_product_same_image scripted same_product shop
              (start scripted
                 [Resolved throttled; Resolved (product_page (Some image_u1))])
              1 2 (JsNum 7) image_u1)
    as (urls & s' & item_j & Hrun & Hurls & Hlog & _).
  - lia.
  - reflexivity.
  - reflexivity.
  - vm_compute. reflexivity.
  - reflexivity.
  - unfold run. rewrite Hrun. cbn [fst snd]. split.
    + rewrite Hurls. vm_compute. reflexivity.
    + rewrite Hlog. vm_compute. reflexivity.
Defined.

(** Three products, each looked up once. *)
Lemma answered_lookups_are_distinct_witness :
  let answers := [Resolved (product_page (Some image_u1));
                  Resolved (product_page None);
                  Resolved (product_page (Some image_u3))] in
  let run := getAllImageUrlsByQuantity scripted three_products shop
               (start scripted answers) in
  fetches (log scripted (snd run)) =
    zip (product_request shop <$> [JsNum 11; JsNum 12; JsNum 13]) answers
  /\ NoDup (url <$> (fst <$> fetches (log scripted (snd run)))).
Proof.
  intros answers run.
  destruct (answered_lookups_are_distinct scripted three_products shop
              (start scripted answers))
    as (urls & s' & Hrun & Hlog & Hnodup & _).
  - repeat constructor.
  - vm_compute. repeat constructor.
  - unfold run. rewrite Hrun. cbn [snd]. rewrite Hlog. split.
    + vm_compute. reflexivity.
    + vm_compute. repeat (apply NoDup_cons; split; [set_unfold; intuition discriminate |]).
      apply NoDup_nil_2.
Defined.


(** Noon of 1 May 2024. *)
Lemma date_window_is_the_utc_day_witness :
  exists lower upper,
    setUTCHours (Some 1714564800000) 0 0 0 0 = Some lower
    /\ setUTCHours (Some 1714564800000) 23 59 59 999 = Some upper
    /\ lower mod msPerDay = 0
    /\ upper = lower + 86399999
    /\ lower <= 1714564800000 <= upper.
Proof. apply date_window_is_the_utc_day. unfold maxTime. lia. Defined.

(** The two pages received in the early exit over the five orders. *)
Lemma range_fetch_returns_what_it_received_witness :
  exists tr,
    log scripted
      (snd (getOrdersByNumberRange scripted 4 100 120 shop
              (start scripted (serving five_orders)))) = [] ++ tr
    /\ Forall page_received tr
    /\ [numbered 110] = List.filter (in_range 100 120) (orders_received tr).
Proof.
  apply (range_fetch_returns_what_it_received scripted 4 100 120 shop
           (start scripted (serving five_orders)) [numbered 110]).
  apply run_result. vm_compute. reflexivity.
Defined.
